(** * JobAgent: résumé parsing and job matching

    A shallow embedding of [src/services/resumeParser.js] (the class
    [ResumeParser]), of the job matcher [jobMatcher.js] (class
    [JobMatcher]) and of the pure helpers of [src/services/jobSearch.js]
    ([buildSearchQueries], [getSeniorityPrefix], [deduplicateJobs]).

    Modelling conventions.
    - JavaScript strings are modelled as Stdlib [string]: sequences of
      code units 0..255 (ASCII and Latin-1). [toLowerCase], whitespace
      ([\s], [trim]) and line terminators are JavaScript's on that range;
      characters beyond it (such as the en dash of the date pattern) are
      outside the model.
    - Integer-valued JavaScript numbers are [Z]; the weighted total and the
      confidence formulas are computed exactly in [Q] (the floating-point
      rounding of the products is not modelled). [Math.round x] is
      [floor (x + 1/2)].
    - Objects used as maps whose iteration order matters
      ([experienceByRole], the lexicon tables) are association lists in
      insertion order. *)

From Stdlib Require Import Bool List ZArith QArith Qround Qminmax Lia Lqa.
From Stdlib Require Import Strings.Ascii Strings.String.
From Stdlib Require Import Sorting.Sorted Sorting.Permutation.
Import ListNotations.

Local Open Scope Z_scope.

(** ** JavaScript string primitives *)

Module JS.

(** Lower-case map of one code unit: [A-Z] and the Latin-1 capitals
    U+00C0..U+00DE except U+00D7 move up by 32. *)
Definition lowerA (c : ascii) : ascii :=
  let n := nat_of_ascii c in
  if (Nat.leb 65 n && Nat.leb n 90)%bool then ascii_of_nat (n + 32)
  else if (Nat.leb 192 n && Nat.leb n 222 && negb (Nat.eqb n 215))%bool
  then ascii_of_nat (n + 32)
  else c.

(** Upper-case map, used on ASCII text only (lexicon entries and the
    case-folding of regular-expression literals, which are ASCII). *)

Definition upperA (c : ascii) : ascii :=
  let n := nat_of_ascii c in
  if (Nat.leb 97 n && Nat.leb n 122)%bool then ascii_of_nat (n - 32) else c.

(** [String.prototype.toLowerCase] / [toUpperCase] *)
Fixpoint toLowerCase (s : string) : string :=
  match s with
  | EmptyString => EmptyString
  | String c s' => String (lowerA c) (toLowerCase s')
  end.

Fixpoint toUpperCase (s : string) : string :=
  match s with
  | EmptyString => EmptyString
  | String c s' => String (upperA c) (toUpperCase s')
  end.

(** [s.includes(sub)] *)
Fixpoint includes (s sub : string) : bool :=
  prefix sub s ||
  match s with
  | EmptyString => false
  | String _ s' => includes s' sub
  end.

(** [Math.round] on a rational: rounds halves towards +infinity. *)
Definition round (q : Q) : Z := Qfloor (q + (1 # 2)).

(** Truthiness of a string ([!s] is [s === ""]). *)
Definition truthy (s : string) : bool := negb (String.eqb s "").

(** JavaScript white space on code units 0..255: TAB, LF, VT, FF, CR,
    SPACE and NO-BREAK SPACE (the set of [\s] and of [trim]). *)
Definition isSpace (c : ascii) : bool :=
  let n := nat_of_ascii c in
  ((Nat.leb 9 n && Nat.leb n 13) || Nat.eqb n 32 || Nat.eqb n 160)%bool.

(** Line terminators on code units 0..255: LF and CR. *)
Definition isLineTerminator (c : ascii) : bool :=
  let n := nat_of_ascii c in (Nat.eqb n 10 || Nat.eqb n 13)%bool.

Fixpoint dropSpaces (l : list ascii) : list ascii :=
  match l with
  | c :: l' => if isSpace c then dropSpaces l' else l
  | [] => []
  end.

(** [s.trim()] *)
Definition trim (s : string) : string :=
  string_of_list_ascii
    (rev (dropSpaces (rev (dropSpaces (list_ascii_of_string s))))).

(** [s.split(sep)] for a one-character separator: every occurrence cuts,
    empty pieces are kept. *)
Fixpoint split (sep : ascii) (s : string) : list string :=
  match s with
  | EmptyString => [EmptyString]
  | String c s' =>
      if Ascii.eqb c sep then EmptyString :: split sep s'
      else match split sep s' with
           | w :: ws => String c w :: ws
           | [] => [String c EmptyString]
           end
  end.

(** [[...new Set(l)]]: duplicates removed, first occurrences kept in order. *)
Fixpoint dedupAux (seen : list string) (l : list string) : list string :=
  match l with
  | [] => []
  | x :: l' => if existsb (String.eqb x) seen then dedupAux seen l'
               else x :: dedupAux (x :: seen) l'
  end.

Definition dedup (l : list string) : list string := dedupAux [] l.

(** [parseInt] of a string of decimal digits. *)
Definition parseDigits (s : string) : Z :=
  fold_left (fun acc c => acc * 10 + (Z.of_nat (nat_of_ascii c) - 48))%Z
            (list_ascii_of_string s) 0%Z.

End JS.

(** ** Data model *)

Module Role.
(** RoleRecord: [{ title, company?, years, rawLine? }] *)
Record t := mk {
  title : string;
  company : option string;
  years : option Z;            (* [null] is [None] *)
  rawLine : option string
}.
End Role.

Module Cat.
(** An entry of [experienceByRole]: [{ years, roles }] *)
Record t := mk { years : Z; roles : list string }.
End Cat.

Module Primary.
(** [primaryRole]: [{ type, title, yearsInRole? }] *)
Record t := mk { type : string; title : string; yearsInRole : option Z }.
End Primary.

Module Skills.
Record t := mk { technical : list string; tools : list string; other : list string }.
End Skills.

Module Profile.
(** The object returned by [extractInformation]. [primaryRole] is optional
    because the matcher reads it through [?.]. *)
Record t := mk {
  rawText : string;
  roles : list Role.t;
  experienceByRole : list (string * Cat.t);
  totalYearsExperience : Z;
  skills : Skills.t;
  seniorityLevel : string;
  education : list string;
  primaryRole : option Primary.t;
  keywords : list string
}.
End Profile.

Module Job.
(** A job listing; a missing [description] is the empty string
    ([job.description || '']). *)
Record t := mk {
  title : string;
  company : string;
  location : string;
  description : string;
  url : string
}.
End Job.

(** Association-list lookup ([obj[key]]). *)
Fixpoint lookup {A} (k : string) (m : list (string * A)) : option A :=
  match m with
  | [] => None
  | (k', v) :: m' => if String.eqb k k' then Some v else lookup k m'
  end.

(** ** The job matcher ([class JobMatcher]) *)

Module JobMatcher.
Local Open Scope string_scope.
Local Open Scope Z_scope.

(** [this.roleSynonyms] *)
Definition roleSynonyms : list (string * list string) := [
  ("software engineer", ["developer"; "programmer"; "swe"; "software developer"; "application developer"]);
  ("frontend engineer", ["frontend developer"; "front-end developer"; "ui developer"; "react developer"; "angular developer"]);
  ("backend engineer", ["backend developer"; "back-end developer"; "server developer"; "api developer"]);
  ("full stack engineer", ["fullstack developer"; "full-stack developer"; "full stack developer"]);
  ("data scientist", ["ml engineer"; "machine learning engineer"; "ai engineer"; "research scientist"]);
  ("data analyst", ["business analyst"; "analytics specialist"; "bi analyst"]);
  ("product manager", ["product owner"; "pm"; "program manager"]);
  ("ux designer", ["product designer"; "ui designer"; "interaction designer"; "user experience designer"]);
  ("devops engineer", ["sre"; "site reliability engineer"; "platform engineer"; "infrastructure engineer"])
].

(** [this.experienceLevels]: level -> (min, max) *)
Definition experienceLevels : list (string * (Z * Z)) := [
  ("intern", (0, 0)); ("entry", (0, 2)); ("junior", (0, 2)); ("mid", (2, 5));
  ("senior", (5, 10)); ("staff", (7, 15)); ("principal", (10, 20));
  ("lead", (5, 15)); ("manager", (5, 15)); ("director", (8, 20));
  ("vp", (10, 25))
]%Z.

(** [titlesMatch(title1, title2)] *)
Definition titlesMatch (title1 title2 : string) : bool :=
  if negb (JS.truthy title1) || negb (JS.truthy title2) then false
  else if JS.includes title1 title2 || JS.includes title2 title1 then true
  else existsb (fun '(canonical, synonyms) =>
         let allVariants := canonical :: synonyms in
         existsb (JS.includes title1) allVariants &&
         existsb (JS.includes title2) allVariants) roleSynonyms.

(** the local table [families] of [sameRoleFamily] *)
Definition families : list (string * list string) := [
  ("engineering", ["engineer"; "developer"; "programmer"; "architect"]);
  ("product", ["product manager"; "product owner"; "program manager"]);
  ("design", ["designer"; "ux"; "ui"]);
  ("data", ["data scientist"; "data analyst"; "data engineer"; "ml engineer"])
].

(** [sameRoleFamily(jobTitle, candidateRole)] *)
Definition sameRoleFamily (jobTitle candidateRole : string) : bool :=
  existsb (fun '(_, keywords) =>
    existsb (JS.includes jobTitle) keywords &&
    existsb (JS.includes candidateRole) keywords) families.

(** the local table [typeKeywords] of [relatedRoleType] *)
Definition typeKeywords : list (string * list string) := [
  ("Engineering", ["engineer"; "developer"; "technical"]);
  ("Product", ["product"; "program"; "project"]);
  ("Design", ["design"; "ux"; "ui"; "creative"]);
  ("Data", ["data"; "analytics"; "ml"; "ai"]);
  ("Management", ["manager"; "lead"; "director"; "head"])
].

(** [relatedRoleType(jobTitle, roleType)]; [roleType] is
    [resumeData.primaryRole?.type], hence optional. *)
Definition relatedRoleType (jobTitle : string) (roleType : option string) : bool :=
  match roleType with
  | None => false
  | Some ty =>
      if negb (JS.truthy ty) then false
      else
        let keywords := match lookup ty typeKeywords with Some k => k | None => [] end in
        existsb (JS.includes jobTitle) keywords
  end.

(** [resumeData.primaryRole?.title?.toLowerCase() || ''] *)
Definition primaryTitleLower (r : Profile.t) : string :=
  match Profile.primaryRole r with
  | Some p => JS.toLowerCase (Primary.title p)
  | None => ""
  end.

(** Criterion 1: [calculateRoleScore(resumeData, job)] *)
Definition calculateRoleScore (r : Profile.t) (job : Job.t) : Z :=
  let jobTitle := JS.toLowerCase (Job.title job) in
  let candidateRoles := map (fun x => JS.toLowerCase (Role.title x)) (Profile.roles r) in
  let primaryRole := primaryTitleLower r in
  if titlesMatch jobTitle primaryRole then 100
  else if existsb (fun role => titlesMatch jobTitle role) candidateRoles then 85
  else if sameRoleFamily jobTitle primaryRole then 70
  else if relatedRoleType jobTitle (option_map Primary.type (Profile.primaryRole r)) then 50
  else 20.

(** [experienceByRole[cat]?.years || 0] *)
Definition categoryYears (r : Profile.t) (cat : string) : Z :=
  match lookup cat (Profile.experienceByRole r) with
  | Some c => Cat.years c
  | None => 0
  end.

(** [getRelevantExperience(resumeData, job)] *)
Definition getRelevantExperience (r : Profile.t) (job : Job.t) : Z :=
  let jobTitle := JS.toLowerCase (Job.title job) in
  if JS.includes jobTitle "engineer" || JS.includes jobTitle "developer" then
    categoryYears r "Engineering"
  else if JS.includes jobTitle "product manager" || JS.includes jobTitle "program manager" then
    categoryYears r "Product"
  else if JS.includes jobTitle "designer" || JS.includes jobTitle "ux" || JS.includes jobTitle "ui" then
    categoryYears r "Design"
  else if JS.includes jobTitle "data" || JS.includes jobTitle "analyst" || JS.includes jobTitle "ml" then
    categoryYears r "Data"
  else if JS.includes jobTitle "manager" || JS.includes jobTitle "director" || JS.includes jobTitle "lead" then
    categoryYears r "Management"
  else Profile.totalYearsExperience r.

(** [extractJobLevel(jobTitle)] *)
Definition extractJobLevel (jobTitle : string) : string :=
  let title := JS.toLowerCase jobTitle in
  if JS.includes title "intern" then "intern"
  else if JS.includes title "junior" || JS.includes title "jr." || JS.includes title "entry" then "junior"
  else if JS.includes title "principal" then "principal"
  else if JS.includes title "staff" then "staff"
  else if JS.includes title "senior" || JS.includes title "sr." then "senior"
  else if JS.includes title "lead" || JS.includes title "tech lead" then "lead"
  else if JS.includes title "manager" && negb (JS.includes title "product manager") then "manager"
  else if JS.includes title "director" then "director"
  else if JS.includes title "vp" || JS.includes title "vice president" then "vp"
  else "mid".

(** Criterion 2: [calculateExperienceScore(resumeData, job)].
    The source also computes [extractRequiredExperience(job)] and
    [resumeData.seniorityLevel], but never reads either value; both are
    pure, so they are left out. *)
Definition calculateExperienceScore (r : Profile.t) (job : Job.t) : Z :=
  let jobTitle := JS.toLowerCase (Job.title job) in
  let jobLevel := extractJobLevel jobTitle in
  let relevantExperience := getRelevantExperience r job in
  let '(lmin, lmax) := match lookup jobLevel experienceLevels with
                       | Some mm => mm | None => (0, 100)%Z end in
  let score :=
    if (lmin <=? relevantExperience) && (relevantExperience <=? lmax + 2) then 100
    else if (lmin - 1 <=? relevantExperience) && (relevantExperience <=? lmax + 3) then 80
    else if relevantExperience <? lmin then
      Z.max 0 (70 - (lmin - relevantExperience) * 15)
    else Z.max 40 (90 - (relevantExperience - lmax) * 10) in
  if (5 <? Profile.totalYearsExperience r) && (relevantExperience <? 3) then
    if String.eqb jobLevel "senior" || String.eqb jobLevel "lead" || String.eqb jobLevel "manager" then
      Z.min score 40
    else if String.eqb jobLevel "mid" || String.eqb jobLevel "junior" || String.eqb jobLevel "entry" then
      Z.max score 70
    else score
  else score.

(** the local array [technicalTerms] of [calculateContentScore] *)
Definition technicalTerms : list string := [
  "javascript"; "python"; "java"; "react"; "node"; "aws"; "sql"; "docker";
  "kubernetes"; "agile"; "scrum"; "typescript"; "angular"; "vue"; "go";
  "postgresql"; "mongodb"; "redis"; "graphql"; "rest"; "api"; "ci/cd";
  "figma"; "sketch"; "adobe"; "analytics"; "tableau"; "spark"
].

Definition countIf (p : string -> bool) (l : list string) : Z :=
  Z.of_nat (List.length (filter p l)).

(** Criterion 3: [calculateContentScore(resumeData, job)] (the candidate
    keywords are lower-cased by the source but never used). *)
Definition calculateContentScore (r : Profile.t) (job : Job.t) : Z :=
  let candidateSkills := map JS.toLowerCase (Skills.technical (Profile.skills r)) in
  let jobDescription := JS.toLowerCase (Job.description job) in
  let jobTitle := JS.toLowerCase (Job.title job) in
  let jobText := jobTitle ++ " " ++ jobDescription in
  let matchedSkills := countIf (JS.includes jobText) candidateSkills in
  let totalJobSkills := countIf (JS.includes jobText) technicalTerms in
  if totalJobSkills =? 0 then
    (if 0 <? Z.of_nat (List.length candidateSkills) then 75 else 50)
  else
    let matchRatio := (inject_Z matchedSkills / inject_Z (Z.max totalJobSkills 1))%Q in
    let score := Qmin 100 (matchRatio * 120)%Q in
    JS.round score.

Record Scores := mkScores { role : Z; experience : Z; content : Z; total : Q }.

(** [calculateMatchScore(resumeData, job)] *)
Definition calculateMatchScore (r : Profile.t) (job : Job.t) : Scores :=
  let roleScore := calculateRoleScore r job in
  let experienceScore := calculateExperienceScore r job in
  let contentScore := calculateContentScore r job in
  let total := (inject_Z roleScore * (40 # 100) + inject_Z experienceScore * (35 # 100)
               + inject_Z contentScore * (25 # 100))%Q in
  mkScores roleScore experienceScore contentScore (inject_Z (JS.round (total * 100)) / 100)%Q.

(** [calculateConfidence(scores)] *)
Definition calculateConfidence (s : Scores) : Z :=
  let t := total s in
  if Qle_bool 85 t then Z.min 95 (JS.round (90 + (t - 85) * (33 # 100))%Q)
  else if Qle_bool 60 t then JS.round (70 + (t - 60) * (76 # 100))%Q
  else if Qle_bool 40 t then JS.round (50 + (t - 40) * (95 # 100))%Q
  else JS.round (t * (125 # 100))%Q.

(** A scored job: [{ ...job, matchScore, scores, confidence }] *)
Record ScoredJob := mkScored {
  job : Job.t; matchScore : Q; scores : Scores; confidence : Z }.

Definition scoreJob (r : Profile.t) (j : Job.t) : ScoredJob :=
  let s := calculateMatchScore r j in
  mkScored j (total s) s (calculateConfidence s).

(** [Array.prototype.sort] with the comparator [(a, b) => b.matchScore -
    a.matchScore]. The sort is stable (ECMAScript 2019) and the comparator
    is consistent, so its result is that of any stable sort by descending
    [matchScore]; here an insertion sort: an element goes before the
    first element whose key is not larger. *)
Fixpoint insertDesc (x : ScoredJob) (l : list ScoredJob) : list ScoredJob :=
  match l with
  | [] => [x]
  | y :: l' => if Qle_bool (matchScore y) (matchScore x) then x :: y :: l'
               else y :: insertDesc x l'
  end.

Fixpoint sortDesc (l : list ScoredJob) : list ScoredJob :=
  match l with
  | [] => []
  | x :: l' => insertDesc x (sortDesc l')
  end.

Record MatchResult := mkResult {
  recommended : list ScoredJob; worthExploring : list ScoredJob; all : list ScoredJob }.

(** [matchJobs(resumeData, jobs)] *)
Definition matchJobs (r : Profile.t) (jobs : list Job.t) : MatchResult :=
  let scoredJobs := sortDesc (map (scoreJob r) jobs) in
  let recommended := filter (fun j => (90 <=? confidence j) && (confidence j <=? 95)) scoredJobs in
  let worthExploring := filter (fun j => (70 <=? confidence j) && (confidence j <? 90)) scoredJobs in
  mkResult recommended worthExploring scoredJobs.

End JobMatcher.

(** ** Regular expressions

    A backtracking matcher following the ECMAScript matcher semantics
    (continuation passing, greedy and lazy quantifiers, first match in
    priority order) for the constructs the parser's patterns use. *)

Module Regex.

Inductive re : Type :=
| Empty                          (* matches the empty string *)
| Chr (a : ascii)                (* a literal character *)
| Cls (p : ascii -> bool)        (* a character class *)
| AnyNL                          (* [.]: any character but a line terminator *)
| Seq (r1 r2 : re)
| Alt (r1 r2 : re)               (* [r1|r2] *)
| Star (greedy : bool) (r : re)  (* [r*] ([greedy = true]) or [r*?] *)
| Group (n : nat) (r : re)       (* capturing group number [n] *)
| WordB.                         (* [\b] *)

(** captures: group number -> (start, end); the newest binding wins *)
Definition caps := list (nat * (nat * nat)).

Fixpoint capGet (c : caps) (n : nat) : option (nat * nat) :=
  match c with
  | [] => None
  | (m, v) :: c' => if Nat.eqb n m then Some v else capGet c' n
  end.

(** Canonicalize (flag [i]) for ASCII literals. *)
Definition chrEq (ic : bool) (a b : ascii) : bool :=
  if ic then Ascii.eqb (JS.upperA a) (JS.upperA b) else Ascii.eqb a b.

(** class membership; under [i] a character matches when one of its case
    variants is a member *)
Definition clsMatch (ic : bool) (p : ascii -> bool) (b : ascii) : bool :=
  if ic then (p b || p (JS.upperA b) || p (JS.lowerA b))%bool else p b.

Definition isWordChar (c : ascii) : bool :=
  let n := nat_of_ascii c in
  ((Nat.leb 65 n && Nat.leb n 90) || (Nat.leb 97 n && Nat.leb n 122)
   || (Nat.leb 48 n && Nat.leb n 57) || Nat.eqb n 95)%bool.

Definition wordAt (s : list ascii) (i : nat) : bool :=
  match nth_error s i with Some c => isWordChar c | None => false end.

Definition isBoundary (s : list ascii) (i : nat) : bool :=
  let a := match i with O => false | S i' => wordAt s i' end in
  let b := wordAt s i in
  xorb a b.

Definition result := option (nat * caps).

(** the iterations of a quantifier: [m] matches its body once; an
    iteration that consumes nothing fails, as in ECMAScript *)
Fixpoint starLoop (m : nat -> caps -> (nat -> caps -> result) -> result)
         (greedy : bool) (k : nat -> caps -> result) (f i : nat) (c : caps) : result :=
  match f with
  | O => k i c
  | S f' =>
      let next := fun j c' => if Nat.ltb i j then starLoop m greedy k f' j c' else None in
      if greedy then
        match m i c next with
        | Some x => Some x
        | None => k i c
        end
      else
        match k i c with
        | Some x => Some x
        | None => m i c next
        end
  end.

(** [mt ic s fuel r i c k]: match [r] at position [i] of [s] with captures
    [c], then the continuation [k]. [fuel] bounds the iterations of a
    quantifier; as each iteration consumes a character, [length s + 1] is
    enough. *)
Fixpoint mt (ic : bool) (s : list ascii) (fuel : nat) (r : re) (i : nat) (c : caps)
         (k : nat -> caps -> result) {struct r} : result :=
  match r with
  | Empty => k i c
  | Chr a =>
      match nth_error s i with
      | Some b => if chrEq ic a b then k (S i) c else None
      | None => None
      end
  | Cls p =>
      match nth_error s i with
      | Some b => if clsMatch ic p b then k (S i) c else None
      | None => None
      end
  | AnyNL =>
      match nth_error s i with
      | Some b => if JS.isLineTerminator b then None else k (S i) c
      | None => None
      end
  | Seq r1 r2 => mt ic s fuel r1 i c (fun j c' => mt ic s fuel r2 j c' k)
  | Alt r1 r2 =>
      match mt ic s fuel r1 i c k with
      | Some x => Some x
      | None => mt ic s fuel r2 i c k
      end
  | Star greedy r1 => starLoop (mt ic s fuel r1) greedy k fuel i c
  | Group n r1 => mt ic s fuel r1 i c (fun j c' => k j ((n, (i, j)) :: c'))
  | WordB => if isBoundary s i then k i c else None
  end.

(** a match attempt anchored at [i] *)
Definition execAt (ic : bool) (s : list ascii) (r : re) (i : nat) : result :=
  mt ic s (List.length s + 1) r i [] (fun j c => Some (j, c)).

(** the first match starting at or after [from] *)
Fixpoint searchAux (ic : bool) (s : list ascii) (r : re) (fuel i : nat)
  : option (nat * nat * caps) :=
  match fuel with
  | O => None
  | S f =>
      match execAt ic s r i with
      | Some (j, c) => Some (i, j, c)
      | None => searchAux ic s r f (S i)
      end
  end.

Definition search (ic : bool) (s : list ascii) (r : re) (from : nat)
  : option (nat * nat * caps) :=
  if Nat.leb from (List.length s)
  then searchAux ic s r (List.length s - from + 1) from else None.

(** all matches of a global ([g]) expression: [RegExp.prototype.exec] from
    [lastIndex] repeatedly; an empty match advances [lastIndex] by one *)
Fixpoint execAllAux (ic : bool) (s : list ascii) (r : re) (fuel last : nat)
  : list (nat * nat * caps) :=
  match fuel with
  | O => []
  | S f =>
      match search ic s r last with
      | None => []
      | Some (p, j, c) =>
          (p, j, c) :: execAllAux ic s r f (if Nat.eqb j p then S j else j)
      end
  end.

Definition execAll (ic : bool) (s : list ascii) (r : re) : list (nat * nat * caps) :=
  execAllAux ic s r (List.length s + 2) 0.

Definition slice (s : list ascii) (i j : nat) : string :=
  string_of_list_ascii (firstn (j - i) (skipn i s)).

(** [match[n]] ([None] is [undefined]) *)
Definition group (s : list ascii) (m : nat * nat * caps) (n : nat) : option string :=
  let '(_, _, c) := m in
  match capGet c n with Some (i, j) => Some (slice s i j) | None => None end.

(** [match[0]] *)
Definition matched (s : list ascii) (m : nat * nat * caps) : string :=
  let '(p, j, _) := m in slice s p j.

(** [str.match(re)] for a global expression: the list of matched strings
    ([null] is the empty list). *)
Definition matchAll (ic : bool) (r : re) (str : string) : list string :=
  let s := list_ascii_of_string str in map (matched s) (execAll ic s r).

(** [str.match(re)] for a non-global expression / [re.test(str)] *)
Definition matchFirst (ic : bool) (r : re) (str : string) : option (nat * nat * caps) :=
  search ic (list_ascii_of_string str) r 0.

Definition test (ic : bool) (r : re) (str : string) : bool :=
  match matchFirst ic r str with Some _ => true | None => false end.

(** building blocks *)
Fixpoint lit (s : string) : re :=
  match s with
  | EmptyString => Empty
  | String a s' => Seq (Chr a) (lit s')
  end.

Fixpoint alts (l : list re) : re :=
  match l with
  | [] => Cls (fun _ => false)
  | [r] => r
  | r :: l' => Alt r (alts l')
  end.

Fixpoint seqs (l : list re) : re :=
  match l with
  | [] => Empty
  | [r] => r
  | r :: l' => Seq r (seqs l')
  end.

Definition plus (r : re) : re := Seq r (Star true r).
Definition star (r : re) : re := Star true r.
Definition opt (r : re) : re := Alt r Empty.          (* [r?] *)
Fixpoint rep (n : nat) (r : re) : re :=               (* [r{n}] *)
  match n with O => Empty | S n' => Seq r (rep n' r) end.

Definition code (c : ascii) : nat := nat_of_ascii c.
Definition inRange (lo hi : nat) (c : ascii) : bool :=
  (Nat.leb lo (code c) && Nat.leb (code c) hi)%bool.
Definition isUpper := inRange 65 90.
Definition isLower := inRange 97 122.
Definition isDigit := inRange 48 57.
Definition isChar (n : nat) (c : ascii) : bool := Nat.eqb (code c) n.

Definition space : re := Cls JS.isSpace.            (* [\s] *)
Definition digit : re := Cls isDigit.               (* [\d] *)

End Regex.

(** ** The résumé parser ([class ResumeParser]) *)

Module ResumeParser.
Import Regex.
Local Open Scope string_scope.
Local Open Scope Z_scope.

(** [this.roleTitles] *)
Definition roleTitles : list string := [
  "software engineer"; "senior software engineer"; "staff engineer"; "principal engineer";
  "frontend engineer"; "backend engineer"; "full stack engineer"; "fullstack engineer";
  "devops engineer"; "site reliability engineer"; "sre"; "platform engineer";
  "data engineer"; "machine learning engineer"; "ml engineer"; "ai engineer";
  "qa engineer"; "test engineer"; "automation engineer";
  "product manager"; "senior product manager"; "product owner"; "program manager";
  "product designer"; "ux designer"; "ui designer"; "ux/ui designer";
  "graphic designer"; "visual designer"; "interaction designer";
  "data scientist"; "data analyst"; "business analyst"; "analytics engineer";
  "engineering manager"; "technical lead"; "tech lead"; "team lead";
  "director of engineering"; "vp of engineering"; "cto"; "ceo";
  "project manager"; "scrum master"; "agile coach";
  "marketing manager"; "digital marketing"; "content manager"; "seo specialist";
  "sales manager"; "account executive"; "business development";
  "consultant"; "analyst"; "specialist"; "coordinator"; "administrator";
  "intern"; "associate"; "junior"; "senior"; "lead"; "head of"; "chief"
].

(** [this.technicalSkills] *)
Definition technicalSkills : list string := [
  "javascript"; "typescript"; "python"; "java"; "c++"; "c#"; "go"; "golang"; "rust";
  "ruby"; "php"; "swift"; "kotlin"; "scala"; "r"; "matlab"; "sql";
  "react"; "reactjs"; "react.js"; "angular"; "vue"; "vuejs"; "vue.js"; "svelte";
  "next.js"; "nextjs"; "nuxt"; "gatsby"; "html"; "css"; "sass"; "scss"; "tailwind";
  "node.js"; "nodejs"; "express"; "django"; "flask"; "fastapi"; "spring"; "spring boot";
  ".net"; "rails"; "laravel"; "graphql"; "rest api"; "microservices";
  "mysql"; "postgresql"; "postgres"; "mongodb"; "redis"; "elasticsearch";
  "dynamodb"; "cassandra"; "sqlite"; "oracle"; "sql server";
  "aws"; "amazon web services"; "azure"; "gcp"; "google cloud";
  "docker"; "kubernetes"; "k8s"; "terraform"; "ansible"; "jenkins";
  "ci/cd"; "github actions"; "gitlab"; "circleci";
  "tensorflow"; "pytorch"; "scikit-learn"; "pandas"; "numpy"; "spark";
  "hadoop"; "kafka"; "airflow"; "tableau"; "power bi";
  "git"; "jira"; "confluence"; "figma"; "sketch"; "adobe xd"; "photoshop";
  "agile"; "scrum"; "kanban"
].

(** [this.seniorityIndicators] (in insertion order) *)
Definition seniorityIndicators : list (string * list string) := [
  ("entry", ["intern"; "internship"; "junior"; "entry level"; "associate"; "graduate"; "trainee"]);
  ("mid", ["mid-level"; "mid level"; "intermediate"; "2+ years"; "3+ years"; "2-4 years"]);
  ("senior", ["senior"; "sr."; "lead"; "principal"; "5+ years"; "6+ years"; "7+ years"]);
  ("manager", ["manager"; "director"; "head of"; "vp"; "chief"; "c-level"; "executive"])
].

(** [capitalizeTitle(title)] *)
Definition capitalizeWord (word : string) : string :=
  match word with
  | EmptyString => EmptyString
  | String c rest => JS.toUpperCase (String c EmptyString) ++ JS.toLowerCase rest
  end.

Definition capitalizeTitle (title : string) : string :=
  String.concat " " (map capitalizeWord (JS.split " "%char title)).

(** [/(\d{4})\s*[-–]\s*(\d{4}|present|current)/i]; of the dash class only
    the hyphen lies in the modelled alphabet. *)
Definition yearPattern : re :=
  seqs [Group 1 (rep 4 digit); star space; Cls (isChar 45); star space;
        Group 2 (alts [rep 4 digit; lit "present"; lit "current"])].

(** [parseRoleLine(line, matchedRole)]; [now] is [new Date().getFullYear()]. *)
Definition parseRoleLine (now : Z) (line matchedRole : string) : Role.t :=
  let cleanLine := JS.trim line in
  let s := list_ascii_of_string cleanLine in
  let years :=
    match matchFirst true yearPattern cleanLine with
    | Some m =>
        let g1 := match group s m 1 with Some g => g | None => "" end in
        let g2 := match group s m 2 with Some g => g | None => "" end in
        let startYear := JS.parseDigits g1 in
        let endYear := if String.eqb (JS.toLowerCase g2) "present"
                          || String.eqb (JS.toLowerCase g2) "current"
                       then now else JS.parseDigits g2 in
        Some (endYear - startYear)
    | None => None
    end in
  Role.mk (capitalizeTitle matchedRole) None years (Some cleanLine).

(** [!foundRoles.some(r => r.title.toLowerCase() === title.toLowerCase())] *)
Definition titleSeen (found : list Role.t) (title : string) : bool :=
  existsb (fun r => String.eqb (JS.toLowerCase (Role.title r)) (JS.toLowerCase title)) found.

(** [foundRoles.push(x)] after the duplicate check *)
Definition pushRole (found : list Role.t) (x : Role.t) : list Role.t :=
  if titleSeen found (Role.title x) then found else found ++ [x].

(** the alternatives ending the title group of both role patterns *)
Definition titleWords : re :=
  alts (map lit ["Engineer"; "Developer"; "Designer"; "Manager"; "Analyst";
                 "Scientist"; "Lead"; "Director"; "Specialist"; "Consultant"]).

(** [([A-Z][a-zA-Z\s]+(?:Engineer|...|Consultant))] *)
Definition titleGroup : re :=
  Group 1 (seqs [Cls isUpper;
                 plus (Cls (fun c => isLower c || isUpper c || JS.isSpace c)%bool);
                 titleWords]).

(** [([A-Za-z0-9\s&.]+)] *)
Definition companyGroup : re :=
  Group 2 (plus (Cls (fun c => isUpper c || isLower c || isDigit c || JS.isSpace c
                               || isChar 38 c || isChar 46 c)%bool)).

(** [/...\s+(?:at|@|\||-)\s+.../gi] *)
Definition rolePattern1 : re :=
  seqs [titleGroup; plus space; alts [lit "at"; lit "@"; lit "|"; lit "-"];
        plus space; companyGroup].

(** [/...\s*[\n,]\s*.../gi] *)
Definition rolePattern2 : re :=
  seqs [titleGroup; star space; Cls (fun c => isChar 10 c || isChar 44 c)%bool;
        star space; companyGroup].

(** the roles of the lexicon pass over one line *)
Definition scanLine (now : Z) (found : list Role.t) (line : string) : list Role.t :=
  let normalizedLine := JS.trim (JS.toLowerCase line) in
  fold_left (fun found role =>
               if JS.includes normalizedLine role
               then pushRole found (parseRoleLine now line role)
               else found) roleTitles found.

(** the roles of one pattern's [exec] loop over the whole text *)
Definition scanPattern (text : string) (found : list Role.t) (pattern : re) : list Role.t :=
  let s := list_ascii_of_string text in
  fold_left (fun found m =>
               let title := JS.trim (match group s m 1 with Some g => g | None => "" end) in
               let company := JS.trim (match group s m 2 with Some g => g | None => "" end) in
               pushRole found (Role.mk title (Some company) None None))
            (execAll true s pattern) found.

(** [extractRoles(text, normalizedText)] *)
Definition extractRoles (now : Z) (text : string) : list Role.t :=
  let foundRoles := fold_left (scanLine now) (JS.split "010"%char text) [] in
  fold_left (scanPattern text) [rolePattern1; rolePattern2] foundRoles.

(** the local table [roleTypes] of [calculateExperienceByRole] *)
Definition roleTypes : list (string * list string) := [
  ("Engineering", ["engineer"; "developer"; "architect"; "devops"; "sre"]);
  ("Product", ["product manager"; "product owner"; "program manager"]);
  ("Design", ["designer"; "ux"; "ui"]);
  ("Data", ["data scientist"; "data analyst"; "data engineer"; "ml engineer"]);
  ("Management", ["manager"; "director"; "lead"; "head of"; "vp"; "chief"])
].

(** [experienceMap[type]] created on first use, then updated in place *)
Fixpoint addToCategory (ty : string) (title : string) (y : Z)
         (m : list (string * Cat.t)) : list (string * Cat.t) :=
  match m with
  | [] => [(ty, Cat.mk y [title])]
  | (k, e) :: m' =>
      if String.eqb ty k then (k, Cat.mk (Cat.years e + y) (Cat.roles e ++ [title])) :: m'
      else (k, e) :: addToCategory ty title y m'
  end.

(** [if (role.years) experienceMap[type].years += role.years] *)
Definition yearsToAdd (r : Role.t) : Z :=
  match Role.years r with Some y => y | None => 0 end.

(** [calculateExperienceByRole(text, roles)] (its [datePatterns] are
    never used) *)
Definition calculateExperienceByRole (roles : list Role.t) : list (string * Cat.t) :=
  let experienceMap :=
    fold_left (fun m role =>
      let roleTitle := JS.toLowerCase (Role.title role) in
      fold_left (fun m '(ty, keywords) =>
        if existsb (JS.includes roleTitle) keywords
        then addToCategory ty (Role.title role) (yearsToAdd role) m
        else m) roleTypes m) roles [] in
  map (fun '(ty, e) =>
         if (Cat.years e =? 0) && (0 <? Z.of_nat (List.length (Cat.roles e)))
         then (ty, Cat.mk (Z.of_nat (List.length (Cat.roles e)) * 2) (Cat.roles e))
         else (ty, e)) experienceMap.

(** [calculateTotalExperience(experienceByRole)] *)
Definition calculateTotalExperience (m : list (string * Cat.t)) : Z :=
  let total := fold_left (fun acc '(_, e) => acc + Cat.years e) m 0 in
  Z.min total 30.

(** [extractSkills(normalizedText)]: [\b<escaped skill>\b] with flag [i] *)
Definition extractSkills (normalizedText : string) : Skills.t :=
  let technical :=
    flat_map (fun skill =>
      if test true (seqs [WordB; lit skill; WordB]) normalizedText
      then [capitalizeTitle skill] else []) technicalSkills in
  Skills.mk (JS.dedup technical) [] [].

(** [determineSeniorityLevel(normalizedText, experienceByRole)] *)
Definition determineSeniorityLevel (normalizedText : string)
           (experienceByRole : list (string * Cat.t)) : string :=
  let totalYears := calculateTotalExperience experienceByRole in
  match find (fun '(_, indicators) => existsb (JS.includes normalizedText) indicators)
             seniorityIndicators with
  | Some (level, _) => level
  | None =>
      if totalYears <=? 2 then "entry"
      else if totalYears <=? 5 then "mid"
      else if totalYears <=? 10 then "senior"
      else "manager"
  end.

(** the three [degreePatterns] of [extractEducation] (flags [gi]) *)
Definition degreePatterns : list re := [
  seqs [WordB;
        Group 1 (alts [seqs [lit "bachelor"; opt (lit "'"); opt (lit "s")];
                       seqs [lit "b"; opt (lit "."); lit "s"; opt (lit ".")];
                       seqs [lit "b"; opt (lit "."); lit "a"; opt (lit ".")]]);
        WordB; Star false AnyNL;
        Group 2 (alts (map lit ["computer science"; "engineering"; "business";
                                "design"; "mathematics"; "physics"]))];
  seqs [WordB;
        Group 1 (alts [seqs [lit "master"; opt (lit "'"); opt (lit "s")];
                       seqs [lit "m"; opt (lit "."); lit "s"; opt (lit ".")];
                       seqs [lit "m"; opt (lit "."); lit "a"; opt (lit ".")];
                       lit "mba"]);
        WordB; Star false AnyNL;
        Group 2 (alts (map lit ["computer science"; "engineering"; "business";
                                "design"; "data science"]))];
  seqs [WordB;
        Group 1 (alts [seqs [lit "ph"; opt (lit "."); lit "d"; opt (lit ".")];
                       lit "doctorate"]);
        WordB; Star false AnyNL;
        Group 2 (alts (map lit ["computer science"; "engineering"]))]
].

(** [extractEducation(normalizedText)] *)
Definition extractEducation (normalizedText : string) : list string :=
  JS.dedup (flat_map (fun pattern => map JS.trim (matchAll true pattern normalizedText))
                     degreePatterns).

(** [determinePrimaryRole(roles, experienceByRole)] *)
Definition determinePrimaryRole (roles : list Role.t)
           (experienceByRole : list (string * Cat.t)) : Primary.t :=
  match roles with
  | [] => Primary.mk "General" "Professional" None
  | recentRole :: _ =>
      let '(maxYears, primaryType) :=
        fold_left (fun '(maxYears, primaryType) '(ty, data) =>
                     if maxYears <? Cat.years data then (Cat.years data, ty)
                     else (maxYears, primaryType))
                  experienceByRole (0, "General") in
      Primary.mk primaryType
                 (if JS.truthy (Role.title recentRole) then Role.title recentRole
                  else "Professional")
                 (Some maxYears)
  end.

(** [/\b[A-Z][a-zA-Z]+(?:\s+[A-Z][a-zA-Z]+)*\b/g] (case sensitive) *)
Definition capitalizedPattern : re :=
  let word := Seq (Cls isUpper) (plus (Cls (fun c => isLower c || isUpper c)%bool)) in
  seqs [WordB; word; star (Seq (plus space) word); WordB].

Definition commonWords : list string :=
  ["the"; "and"; "for"; "with"; "from"; "this"; "that"; "have"; "been"].

(** [extractKeywords(text)] *)
Definition extractKeywords (text : string) : list string :=
  let capitalizedWords := matchAll false capitalizedPattern text in
  let filtered := filter (fun word =>
                    negb (existsb (String.eqb (JS.toLowerCase word)) commonWords)
                    && Nat.ltb 2 (String.length word))%bool capitalizedWords in
  firstn 50 (JS.dedup filtered).

(** [extractInformation(text)]; [now] is the current calendar year. *)
Definition extractInformation (now : Z) (text : string) : Profile.t :=
  let normalizedText := JS.toLowerCase text in
  let roles := extractRoles now text in
  let experienceByRole := calculateExperienceByRole roles in
  let skills := extractSkills normalizedText in
  let seniorityLevel := determineSeniorityLevel normalizedText experienceByRole in
  let education := extractEducation normalizedText in
  let primaryRole := determinePrimaryRole roles experienceByRole in
  Profile.mk text roles experienceByRole (calculateTotalExperience experienceByRole)
             skills seniorityLevel education (Some primaryRole) (extractKeywords text).

(** [parse(filePath)]: [ext] is [path.extname(filePath)] and [text] the
    decoded content the format's decoder returns (decoding is done by the
    external libraries). [inl msg] is a thrown [Error]. *)
Definition parse (now : Z) (ext text : string) : string + Profile.t :=
  let e := JS.toLowerCase ext in
  if String.eqb e ".pdf" || String.eqb e ".docx" || String.eqb e ".txt"
  then inr (extractInformation now text)
  else inl ("Unsupported file format: " ++ e).

End ResumeParser.

(** ** The matcher's explanations and required experience, the job search *)

Module MatcherText.
Local Open Scope string_scope.
Local Open Scope Z_scope.
Import JobMatcher.

(** [generateMatchExplanation(scores, resumeData, job)]: the three
    [explanations.push] steps in order ([job] is not read). *)
Definition generateMatchExplanation (scores : Scores) (resumeData : Profile.t) (job : Job.t)
  : list string :=
  let explanations : list string := [] in
  let explanations :=
    if 85 <=? role scores then
      app explanations ["Strong role alignment with your " ++
        match Profile.primaryRole resumeData with
        | Some p => if JS.truthy (Primary.title p) then Primary.title p else "background"
        | None => "background"
        end]
    else if 60 <=? role scores then app explanations ["Related to your career experience"]
    else explanations in
  let explanations :=
    if 80 <=? experience scores then app explanations ["Experience level matches well"]
    else if 60 <=? experience scores then app explanations ["Slight stretch for experience level"]
    else if experience scores <? 50 then
      app explanations ["May require more experience in this specific area"]
    else explanations in
  let explanations :=
    if 70 <=? content scores then app explanations ["Many of your skills match the requirements"]
    else explanations in
  explanations.

End MatcherText.

Module RequiredExperience.
Local Open Scope string_scope.
Local Open Scope Z_scope.
Import Regex.

(** [\d+] *)
Definition digits : re := plus digit.

(** the four [patterns] of [extractRequiredExperience] (flag [i]) *)
Definition requiredPatterns : list re := [
  seqs [Group 1 digits; opt (lit "+"); star space;
        alts [seqs [lit "year"; opt (lit "s")]; seqs [lit "yr"; opt (lit "s")]];
        star space; opt (seqs [lit "of"; star space]); lit "experience"];
  seqs [Group 1 digits; star space; lit "-"; star space; Group 2 digits; star space;
        lit "year"; opt (lit "s")];
  seqs [lit "minimum"; star space; Group 1 digits; star space; lit "year"; opt (lit "s")];
  seqs [lit "at least"; star space; Group 1 digits; star space; lit "year"; opt (lit "s")]
].

(** the loop [for (const pattern of patterns)]: [Some v] when a pattern
    matches and the function returns [v = parseInt(match[1])]; [parseInt]
    of [undefined] is [NaN], written [None] *)
Fixpoint matchPatterns (description : string) (patterns : list re) : option (option Z) :=
  match patterns with
  | [] => None
  | pattern :: rest =>
      match matchFirst true pattern description with
      | Some m =>
          Some (match group (list_ascii_of_string description) m 1 with
                | Some g => Some (JS.parseDigits g)
                | None => None
                end)
      | None => matchPatterns description rest
      end
  end.

(** [extractRequiredExperience(job)]; [None] is [NaN]. *)
Definition extractRequiredExperience (job : Job.t) : option Z :=
  let description := JS.toLowerCase (Job.description job) in
  match matchPatterns description requiredPatterns with
  | Some years => years
  | None =>
      let level := JobMatcher.extractJobLevel (Job.title job) in
      Some (match lookup level JobMatcher.experienceLevels with
            | Some (lmin, _) => if lmin =? 0 then 2 else lmin
            | None => 2
            end)
  end.

End RequiredExperience.

Module JobSearch.
Local Open Scope string_scope.
Local Open Scope Z_scope.

(** [getSeniorityPrefix(level)]: [prefixes[level] || ''] (levels are the
    four the parser produces; inherited properties of the object literal are
    not modelled) *)
Definition prefixes : list (string * string) :=
  [("entry", "Junior"); ("mid", ""); ("senior", "Senior"); ("manager", "Lead")].

Definition getSeniorityPrefix (level : string) : string :=
  match lookup level prefixes with
  | Some p => if JS.truthy p then p else ""
  | None => ""
  end.

(** the local table [roleKeywords] of [buildSearchQueries] *)
Definition roleKeywords : list (string * list string) := [
  ("Engineering", ["Software Engineer"; "Developer"; "Full Stack Engineer"]);
  ("Product", ["Product Manager"; "Program Manager"; "Product Owner"]);
  ("Design", ["Product Designer"; "UX Designer"; "UI Designer"]);
  ("Data", ["Data Scientist"; "Data Analyst"; "Data Engineer"; "Business Analyst"; "Analyst"]);
  ("Management", ["Engineering Manager"; "Technical Lead"; "Team Lead"])
].

(** [buildSearchQueries(resumeData)]: the [queries.push] steps in order,
    then [[...new Set(queries)].slice(0, 5)] *)
Definition buildSearchQueries (resumeData : Profile.t) : list string :=
  let queries : list string := [] in
  let seniorityPrefix := getSeniorityPrefix (Profile.seniorityLevel resumeData) in
  let primaryTitle :=
    match Profile.primaryRole resumeData with
    | Some p => if JS.truthy (Primary.title p) then Primary.title p else ""
    | None => ""
    end in
  let queries :=
    if JS.truthy primaryTitle
    then app queries [primaryTitle; JS.trim (seniorityPrefix ++ " " ++ primaryTitle)]
    else queries in
  let queries :=
    match Profile.primaryRole resumeData with
    | Some p =>
        if JS.truthy (Primary.type p) then
          let keywords := match lookup (Primary.type p) roleKeywords with
                          | Some k => k | None => [] end in
          app queries (map (fun keyword => JS.trim (seniorityPrefix ++ " " ++ keyword)) keywords)
        else queries
    | None => queries
    end in
  let titleLower := JS.toLowerCase primaryTitle in
  let queries :=
    if JS.includes titleLower "analyst"
    then app queries ["Analyst"; "Business Analyst"; "Data Analyst";
                      JS.trim (seniorityPrefix ++ " Analyst")]
    else queries in
  let topSkills := firstn 2 (Skills.technical (Profile.skills resumeData)) in
  let queries :=
    if Nat.ltb 0 (List.length topSkills) && JS.truthy primaryTitle
    then app queries (map (fun skill => skill ++ " " ++ primaryTitle) topSkills)
    else queries in
  firstn 5 (JS.dedup queries).

(** the key [`${job.title.toLowerCase()}-${job.company.toLowerCase()}`] *)
Definition jobKey (job : Job.t) : string :=
  JS.toLowerCase (Job.title job) ++ "-" ++ JS.toLowerCase (Job.company job).

(** [deduplicateJobs(jobs)]: [jobs.filter] with the set [seen] *)
Fixpoint dedupJobs (seen : list string) (jobs : list Job.t) : list Job.t :=
  match jobs with
  | [] => []
  | job :: rest =>
      let key := jobKey job in
      if existsb (String.eqb key) seen then dedupJobs seen rest
      else job :: dedupJobs (key :: seen) rest
  end.

Definition deduplicateJobs (jobs : list Job.t) : list Job.t := dedupJobs [] jobs.

End JobSearch.

(** ** Auxiliary formulations used in the statements *)

Module Bands.
Local Open Scope Q_scope.
(** The four branch expressions of [calculateConfidence], each as a
    function of the total. *)
Definition below40 (t : Q) : Z := JS.round (t * (125 # 100)).
Definition from40 (t : Q) : Z := JS.round (50 + (t - 40) * (95 # 100)).
Definition from60 (t : Q) : Z := JS.round (70 + (t - 60) * (76 # 100)).
Definition from85 (t : Q) : Z := Z.min 95 (JS.round (90 + (t - 85) * (33 # 100))).
End Bands.

Module RoleScan.
Import ResumeParser.
(** The role candidates in the order [extractRoles] meets them: every line
    top to bottom against the lexicon (within a line in lexicon order),
    then the matches of the first role pattern, then of the second. *)
Definition lineCandidates (now : Z) (line : string) : list Role.t :=
  let normalizedLine := JS.trim (JS.toLowerCase line) in
  map (parseRoleLine now line) (filter (JS.includes normalizedLine) roleTitles).

Definition patternCandidates (text : string) (pattern : Regex.re) : list Role.t :=
  let s := list_ascii_of_string text in
  map (fun m => Role.mk (JS.trim (match Regex.group s m 1 with Some g => g | None => EmptyString end))
                        (Some (JS.trim (match Regex.group s m 2 with Some g => g | None => EmptyString end)))
                        None None)
      (Regex.execAll true s pattern).

Definition roleCandidates (now : Z) (text : string) : list Role.t :=
  flat_map (lineCandidates now) (JS.split "010"%char text)
  ++ patternCandidates text rolePattern1 ++ patternCandidates text rolePattern2.

Definition normTitle (r : Role.t) : string := JS.toLowerCase (Role.title r).

(** Keep the first candidate of each case-insensitive title. *)
Fixpoint firstByTitle (seen : list string) (l : list Role.t) : list Role.t :=
  match l with
  | [] => []
  | x :: l' =>
      if existsb (String.eqb (normTitle x)) seen then firstByTitle seen l'
      else x :: firstByTitle (normTitle x :: seen) l'
  end.
End RoleScan.

(** ** Properties *)

Local Open Scope string_scope.
Local Open Scope Z_scope.

Module MatcherFacts.
Import JobMatcher.

(** [a] may precede [b] in a list sorted by descending score *)
Definition descR (a b : ScoredJob) : Prop := (matchScore b <= matchScore a)%Q.

Lemma insertDesc_perm : forall x l, Permutation (insertDesc x l) (x :: l).
Proof.
  intros x l; induction l as [|y l IH]; simpl; [constructor; constructor|].
  destruct (Qle_bool (matchScore y) (matchScore x)); [reflexivity|].
  rewrite IH. apply perm_swap.
Qed.

Lemma sortDesc_perm : forall l, Permutation (sortDesc l) l.
Proof.
  induction l as [|x l IH]; simpl; [constructor|].
  rewrite insertDesc_perm. now constructor.
Qed.

Lemma insertDesc_hd : forall z x l,
  descR z x -> HdRel descR z l -> HdRel descR z (insertDesc x l).
Proof.
  intros z x [|y l] Hzx Hz; simpl; [now constructor|].
  destruct (Qle_bool (matchScore y) (matchScore x)); constructor; auto.
  now inversion Hz.
Qed.

Lemma insertDesc_sorted : forall x l, Sorted descR l -> Sorted descR (insertDesc x l).
Proof.
  intros x l; induction l as [|y l IH]; intros Hs; simpl; [auto|].
  destruct (Qle_bool (matchScore y) (matchScore x)) eqn:E.
  - constructor; [exact Hs|]. constructor. unfold descR. now apply Qle_bool_iff.
  - inversion Hs as [|? ? Hl Hh]; subst. constructor; [now apply IH|].
    apply insertDesc_hd; [|exact Hh].
    unfold descR. apply Qlt_le_weak, Qnot_le_lt.
    intro H. apply Qle_bool_iff in H. congruence.
Qed.

Lemma sortDesc_sorted : forall l, Sorted descR (sortDesc l).
Proof. induction l; simpl; auto using insertDesc_sorted. Qed.

Definition scoreIs (q : Q) (a : ScoredJob) : bool := Qeq_bool (matchScore a) q.

Lemma insertDesc_filter : forall q x l,
  filter (scoreIs q) (insertDesc x l) = filter (scoreIs q) (x :: l).
Proof.
  intros q x l; induction l as [|y l IH]; [reflexivity|].
  cbn [insertDesc].
  destruct (Qle_bool (matchScore y) (matchScore x)) eqn:E; [reflexivity|].
  cbn [filter]. rewrite IH. cbn [filter].
  destruct (scoreIs q y) eqn:Ey, (scoreIs q x) eqn:Ex; try reflexivity.
  exfalso. unfold scoreIs in *. apply Qeq_bool_iff in Ey, Ex.
  assert (H : (matchScore y <= matchScore x)%Q) by (rewrite Ey, Ex; apply Qle_refl).
  apply Qle_bool_iff in H. congruence.
Qed.

Lemma sortDesc_filter : forall q l, filter (scoreIs q) (sortDesc l) = filter (scoreIs q) l.
Proof.
  intros q; induction l as [|x l IH]; [reflexivity|].
  simpl sortDesc. rewrite insertDesc_filter. cbn [filter]. now rewrite IH.
Qed.

End MatcherFacts.

(** C2: [matchJobs] scores every job once: its [all] list has one entry per
    input job, is a permutation of the scored input, is sorted by
    descending [matchScore], and jobs of equal score keep their input
    order (the subsequence of each score value is that of the input). *)
Theorem matchJobs_all_sorted_stable : forall (r : Profile.t) (jobs : list Job.t),
  let a := JobMatcher.all (JobMatcher.matchJobs r jobs) in
  let scored := map (JobMatcher.scoreJob r) jobs in
  List.length a = List.length jobs /\
  Permutation a scored /\
  Sorted MatcherFacts.descR a /\
  (forall q : Q, filter (MatcherFacts.scoreIs q) a = filter (MatcherFacts.scoreIs q) scored).
Proof.
  intros r jobs a scored. subst a scored. unfold JobMatcher.matchJobs. cbn [JobMatcher.all].
  split; [|split; [|split]].
  - rewrite (Permutation_length (MatcherFacts.sortDesc_perm _)). apply length_map.
  - apply MatcherFacts.sortDesc_perm.
  - apply MatcherFacts.sortDesc_sorted.
  - intros q. apply MatcherFacts.sortDesc_filter.
Qed.

(** C5: a scored job is in [recommended] iff it is in [all] with confidence
    in [90, 95], in [worthExploring] iff it is in [all] with confidence in
    [70, 90); no job is in both lists, and both lists are sublists of
    [all]. *)
Theorem matchJobs_categories : forall (r : Profile.t) (jobs : list Job.t) (x : JobMatcher.ScoredJob),
  let res := JobMatcher.matchJobs r jobs in
  (In x (JobMatcher.recommended res) <->
     In x (JobMatcher.all res) /\ 90 <= JobMatcher.confidence x <= 95) /\
  (In x (JobMatcher.worthExploring res) <->
     In x (JobMatcher.all res) /\ 70 <= JobMatcher.confidence x < 90) /\
  ~ (In x (JobMatcher.recommended res) /\ In x (JobMatcher.worthExploring res)) /\
  (In x (JobMatcher.recommended res) -> In x (JobMatcher.all res)) /\
  (In x (JobMatcher.worthExploring res) -> In x (JobMatcher.all res)).
Proof.
  intros r jobs x res. subst res. unfold JobMatcher.matchJobs; cbn.
  rewrite !filter_In, !andb_true_iff, !Z.leb_le, !Z.ltb_lt.
  split; [tauto|split; [tauto|split; [lia|tauto]]].
Qed.

(** C1: career-pivot override. When [totalYearsExperience > 5] and the
    relevant (category) experience for the posting is below 3, the
    experience score is at most 40 for senior, lead and manager postings
    and at least 70 for junior, entry and mid postings; in particular with
    8 years in total and 2 in Product, a "Senior Product Manager" posting
    (level senior) scores at most 40 and a "Product Manager" posting
    (level mid) at least 70. *)
Theorem career_pivot_override :
  (forall (r : Profile.t) (job : Job.t),
     5 < Profile.totalYearsExperience r ->
     JobMatcher.getRelevantExperience r job < 3 ->
     let lvl := JobMatcher.extractJobLevel (JS.toLowerCase (Job.title job)) in
     (In lvl ["senior"; "lead"; "manager"]%string ->
        JobMatcher.calculateExperienceScore r job <= 40) /\
     (In lvl ["junior"; "entry"; "mid"]%string ->
        70 <= JobMatcher.calculateExperienceScore r job)) /\
  (forall (r : Profile.t) (jobS jobM : Job.t),
     Profile.totalYearsExperience r = 8 ->
     JobMatcher.categoryYears r "Product" = 2 ->
     Job.title jobS = "Senior Product Manager"%string ->
     Job.title jobM = "Product Manager"%string ->
     JobMatcher.extractJobLevel (JS.toLowerCase (Job.title jobS)) = "senior"%string /\
     JobMatcher.extractJobLevel (JS.toLowerCase (Job.title jobM)) = "mid"%string /\
     JobMatcher.calculateExperienceScore r jobS <= 40 /\
     70 <= JobMatcher.calculateExperienceScore r jobM).
Proof.
  assert (general : forall (r : Profile.t) (job : Job.t),
     5 < Profile.totalYearsExperience r ->
     JobMatcher.getRelevantExperience r job < 3 ->
     let lvl := JobMatcher.extractJobLevel (JS.toLowerCase (Job.title job)) in
     (In lvl ["senior"; "lead"; "manager"]%string ->
        JobMatcher.calculateExperienceScore r job <= 40) /\
     (In lvl ["junior"; "entry"; "mid"]%string ->
        70 <= JobMatcher.calculateExperienceScore r job)).
  { intros r job Htot Hrel lvl. subst lvl.
    unfold JobMatcher.calculateExperienceScore.
    remember (JobMatcher.extractJobLevel (JS.toLowerCase (Job.title job))) as lvl eqn:Hl.
    clear Hl.
    remember (JobMatcher.getRelevantExperience r job) as rel eqn:Hr. clear Hr.
    assert (Hc : (5 <? Profile.totalYearsExperience r) && (rel <? 3) = true)
      by (apply andb_true_iff; split; apply Z.ltb_lt; assumption).
    destruct (lookup lvl JobMatcher.experienceLevels) as [[lmin lmax]|];
      cbv zeta; rewrite Hc;
      (split; intros HIn;
       [ destruct HIn as [H|[H|[H|[]]]]; subst lvl; cbn -[Z.min Z.max]; apply Z.le_min_r
       | destruct HIn as [H|[H|[H|[]]]]; subst lvl; cbn -[Z.min Z.max]; apply Z.le_max_r ]). }
  split; [exact general|].
  intros r jobS jobM Htot Hprod HS HM.
  assert (ES : JobMatcher.getRelevantExperience r jobS = JobMatcher.categoryYears r "Product").
  { unfold JobMatcher.getRelevantExperience. rewrite HS. reflexivity. }
  assert (EM : JobMatcher.getRelevantExperience r jobM = JobMatcher.categoryYears r "Product").
  { unfold JobMatcher.getRelevantExperience. rewrite HM. reflexivity. }
  assert (LS : JobMatcher.extractJobLevel (JS.toLowerCase (Job.title jobS)) = "senior"%string)
    by (rewrite HS; reflexivity).
  assert (LM : JobMatcher.extractJobLevel (JS.toLowerCase (Job.title jobM)) = "mid"%string)
    by (rewrite HM; reflexivity).
  split; [exact LS|split; [exact LM|split]].
  - apply (general r jobS); [lia|lia|]. rewrite LS. simpl; auto.
  - apply (general r jobM); [lia|lia|]. rewrite LM. simpl; auto.
Qed.

Module RoundFacts.
Local Open Scope Q_scope.

Lemma round_mono : forall x y, x <= y -> (JS.round x <= JS.round y)%Z.
Proof. intros x y H. unfold JS.round. apply Qfloor_resp_le. lra. Qed.

Lemma round_upper : forall x (n : Z), x < inject_Z n + (1 # 2) -> (JS.round x <= n)%Z.
Proof.
  intros x n H. unfold JS.round.
  assert (Hf := Qfloor_le (x + (1 # 2))).
  assert (Hlt : inject_Z (Qfloor (x + (1 # 2))) < inject_Z (n + 1)).
  { rewrite inject_Z_plus. unfold inject_Z at 3. lra. }
  rewrite <- Zlt_Qlt in Hlt. lia.
Qed.

Lemma round_lower : forall x (n : Z), inject_Z n - (1 # 2) <= x -> (n <= JS.round x)%Z.
Proof.
  intros x n H. unfold JS.round.
  rewrite <- (Qfloor_Z n). apply Qfloor_resp_le. lra.
Qed.

Lemma round_Z : forall n : Z, JS.round (inject_Z n) = n.
Proof.
  intros n. apply Z.le_antisymm; [apply round_upper | apply round_lower]; lra.
Qed.

Lemma round_compat : forall x y, x == y -> JS.round x = JS.round y.
Proof.
  intros x y H. apply Z.le_antisymm; apply round_mono; rewrite H; apply Qle_refl.
Qed.

End RoundFacts.

Module ConfidenceFacts.
Import JobMatcher.
Local Open Scope Q_scope.

Lemma confidence_cases : forall s : Scores,
  let t := total s in
  (t < 40 /\ calculateConfidence s = Bands.below40 t) \/
  (40 <= t < 60 /\ calculateConfidence s = Bands.from40 t) \/
  (60 <= t < 85 /\ calculateConfidence s = Bands.from60 t) \/
  (85 <= t /\ calculateConfidence s = Bands.from85 t).
Proof.
  intros s t. unfold calculateConfidence. fold t.
  destruct (Qle_bool 85 t) eqn:E85; [right; right; right; split; [now apply Qle_bool_iff|reflexivity]|].
  assert (H85 : t < 85) by (apply Qnot_le_lt; intro H; apply Qle_bool_iff in H; congruence).
  destruct (Qle_bool 60 t) eqn:E60; [right; right; left; split; [split; [now apply Qle_bool_iff|exact H85]|reflexivity]|].
  assert (H60 : t < 60) by (apply Qnot_le_lt; intro H; apply Qle_bool_iff in H; congruence).
  destruct (Qle_bool 40 t) eqn:E40; [right; left; split; [split; [now apply Qle_bool_iff|exact H60]|reflexivity]|].
  assert (H40 : t < 40) by (apply Qnot_le_lt; intro H; apply Qle_bool_iff in H; congruence).
  left; split; [exact H40|reflexivity].
Qed.

Lemma below40_upper : forall t, t < 40 -> (Bands.below40 t <= 50)%Z.
Proof. intros t H. apply RoundFacts.round_upper. unfold inject_Z. lra. Qed.

Lemma from40_bounds : forall t, 40 <= t < 60 -> (50 <= Bands.from40 t <= 69)%Z.
Proof.
  intros t H. split; [apply RoundFacts.round_lower|apply RoundFacts.round_upper];
  unfold inject_Z; lra.
Qed.

Lemma from60_bounds : forall t, 60 <= t < 85 -> (70 <= Bands.from60 t <= 89)%Z.
Proof.
  intros t H. split; [apply RoundFacts.round_lower|apply RoundFacts.round_upper];
  unfold inject_Z; lra.
Qed.

Lemma from85_lower : forall t, 85 <= t -> (90 <= Bands.from85 t)%Z.
Proof.
  intros t H. unfold Bands.from85. apply Z.min_glb; [lia|].
  apply RoundFacts.round_lower. unfold inject_Z. lra.
Qed.

Lemma bands_mono : forall t1 t2, t1 <= t2 ->
  (Bands.below40 t1 <= Bands.below40 t2 /\ Bands.from40 t1 <= Bands.from40 t2 /\
   Bands.from60 t1 <= Bands.from60 t2 /\ Bands.from85 t1 <= Bands.from85 t2)%Z.
Proof.
  intros t1 t2 H. unfold Bands.below40, Bands.from40, Bands.from60, Bands.from85.
  repeat split; try apply Z.min_le_compat_l; apply RoundFacts.round_mono; nra.
Qed.

Lemma calculateConfidence_mono : forall s1 s2 : Scores,
  total s1 <= total s2 -> (calculateConfidence s1 <= calculateConfidence s2)%Z.
Proof.
  intros s1 s2 H.
  destruct (bands_mono _ _ H) as (M1 & M2 & M3 & M4).
  destruct (confidence_cases s1) as [(B1 & E1)|[(B1 & E1)|[(B1 & E1)|(B1 & E1)]]];
  destruct (confidence_cases s2) as [(B2 & E2)|[(B2 & E2)|[(B2 & E2)|(B2 & E2)]]];
  rewrite E1, E2; try lia; try (exfalso; lra);
  repeat match goal with
  | h : total ?s < 40 |- _ => pose proof (below40_upper _ h); clear h
  | h : 40 <= total ?s < 60 |- _ => pose proof (from40_bounds _ h); clear h
  | h : 60 <= total ?s < 85 |- _ => pose proof (from60_bounds _ h); clear h
  | h : 85 <= total ?s |- _ => pose proof (from85_lower _ h); clear h
  end; lia.
Qed.

End ConfidenceFacts.

(** C4 (counterexample): the adjacent bands of [calculateConfidence] do not
    agree at 60 and 85. The band below 60 gives exactly 69 at 60 and the
    band from 60 gives 70 there; the band below 85 gives exactly 89 at 85 and
    the band from 85 gives 90. Both values at each boundary are integers
    before rounding, so rounding does not explain the gap. Just below each
    boundary the confidence is 69 (resp. 89), and at the boundary it is 70
    (resp. 90). *)
Lemma confidence_band_gap :
  Bands.from40 60 = 69 /\ Bands.from60 60 = 70 /\
  Bands.from60 85 = 89 /\ Bands.from85 85 = 90 /\
  (50 + (60 - 40) * (95 # 100) == 69)%Q /\ (70 + (85 - 60) * (76 # 100) == 89)%Q /\
  JobMatcher.calculateConfidence (JobMatcher.mkScores 0 0 0 (5999 # 100)) = 69 /\
  JobMatcher.calculateConfidence (JobMatcher.mkScores 0 0 0 60) = 70 /\
  JobMatcher.calculateConfidence (JobMatcher.mkScores 0 0 0 (8499 # 100)) = 89 /\
  JobMatcher.calculateConfidence (JobMatcher.mkScores 0 0 0 85) = 90.
Proof. repeat split; vm_compute; reflexivity. Qed.

(** C4 (amended): [calculateConfidence] is monotonically non-decreasing in
    the total. Each total uses the band it lies in. At 40 the adjacent bands
    agree (both give 50). At 60 and 85 they differ by exactly one point:
    69 against 70, and 89 against 90. *)
Theorem calculateConfidence_monotone_bands :
  (forall s1 s2 : JobMatcher.Scores,
     (JobMatcher.total s1 <= JobMatcher.total s2)%Q ->
     JobMatcher.calculateConfidence s1 <= JobMatcher.calculateConfidence s2) /\
  (forall s : JobMatcher.Scores,
     let t := JobMatcher.total s in
     ((t < 40)%Q -> JobMatcher.calculateConfidence s = Bands.below40 t) /\
     ((40 <= t < 60)%Q -> JobMatcher.calculateConfidence s = Bands.from40 t) /\
     ((60 <= t < 85)%Q -> JobMatcher.calculateConfidence s = Bands.from60 t) /\
     ((85 <= t)%Q -> JobMatcher.calculateConfidence s = Bands.from85 t)) /\
  Bands.below40 40 = 50 /\ Bands.from40 40 = 50 /\
  Bands.from40 60 = 69 /\ Bands.from60 60 = 70 /\
  Bands.from60 85 = 89 /\ Bands.from85 85 = 90.
Proof.
  split; [exact ConfidenceFacts.calculateConfidence_mono|].
  split.
  - intros s t.
    destruct (ConfidenceFacts.confidence_cases s) as [(B & E)|[(B & E)|[(B & E)|(B & E)]]];
      fold t in B, E;
      repeat split; intros H; first [exact E | exfalso; lra].
  - repeat split; vm_compute; reflexivity.
Qed.

Module RoleScoreFacts.
Import JobMatcher.

Definition uxProfile : Profile.t :=
  Profile.mk "" [Role.mk "UX Designer" None (Some 3) None;
                 Role.mk "Software Engineer" None (Some 4) None]
             [("Engineering", Cat.mk 4 ["Software Engineer"]);
              ("Design", Cat.mk 3 ["UX Designer"])]
             7 (Skills.mk [] [] []) "mid" []
             (Some (Primary.mk "Design" "UX Designer" (Some 3))) [].

Definition sweJob : Job.t := Job.mk "Software Engineer" "Acme" "Remote" "" "".

Lemma calculateRoleScore_ladder : forall r j,
  In (calculateRoleScore r j) [100; 85; 70; 50; 20].
Proof.
  intros r j. unfold calculateRoleScore.
  repeat match goal with |- context [if ?b then _ else _] => destruct b end;
  simpl; auto 6.
Qed.

End RoleScoreFacts.

(** C6 (counterexample): a profile whose primary role is "UX Designer" and
    whose role history also lists "Software Engineer" gets role score 85
    (the history tier) on a "Software Engineer" posting. That is above 50,
    though the two titles share no family keyword. *)
Lemma role_score_history_counterexample :
  JobMatcher.primaryTitleLower RoleScoreFacts.uxProfile = "ux designer"%string /\
  JobMatcher.sameRoleFamily "software engineer" "ux designer" = false /\
  JobMatcher.calculateRoleScore RoleScoreFacts.uxProfile RoleScoreFacts.sweJob = 85.
Proof. repeat split; vm_compute; reflexivity. Qed.

(** C6 (amended): the role score is one of 100, 85, 70, 50, 20, never 0. A
    "Frontend Developer" posting against primary title "Frontend Engineer"
    scores 100. A "Software Engineer" posting against primary title "UX
    Designer" shares no family keyword with it. It scores 85 when a role of
    the candidate's history matches the title, and at most 50 otherwise. *)
Theorem calculateRoleScore_spec :
  (forall r j, In (JobMatcher.calculateRoleScore r j) [100; 85; 70; 50; 20] /\
               JobMatcher.calculateRoleScore r j <> 0) /\
  (forall r j p, Profile.primaryRole r = Some p ->
     Primary.title p = "Frontend Engineer"%string ->
     Job.title j = "Frontend Developer"%string ->
     JobMatcher.calculateRoleScore r j = 100) /\
  (forall r j p, Profile.primaryRole r = Some p ->
     Primary.title p = "UX Designer"%string ->
     Job.title j = "Software Engineer"%string ->
     JobMatcher.sameRoleFamily "software engineer" "ux designer" = false /\
     (existsb (fun role => JobMatcher.titlesMatch "software engineer" role)
              (map (fun x => JS.toLowerCase (Role.title x)) (Profile.roles r)) = true ->
      JobMatcher.calculateRoleScore r j = 85) /\
     (existsb (fun role => JobMatcher.titlesMatch "software engineer" role)
              (map (fun x => JS.toLowerCase (Role.title x)) (Profile.roles r)) = false ->
      JobMatcher.calculateRoleScore r j <= 50)).
Proof.
  split; [|split].
  - intros r j. pose proof (RoleScoreFacts.calculateRoleScore_ladder r j) as H.
    split; [exact H|]. simpl in H. intro E. rewrite E in H. intuition discriminate.
  - intros r j p Hp Ht Hj. unfold JobMatcher.calculateRoleScore, JobMatcher.primaryTitleLower.
    rewrite Hp, Ht, Hj. reflexivity.
  - intros r j p Hp Ht Hj.
    assert (Fam : JobMatcher.sameRoleFamily "software engineer" "ux designer" = false)
      by reflexivity.
    split; [exact Fam|].
    unfold JobMatcher.calculateRoleScore, JobMatcher.primaryTitleLower.
    rewrite Hp, Ht, Hj.
    change (JS.toLowerCase "Software Engineer") with "software engineer"%string.
    change (JS.toLowerCase "UX Designer") with "ux designer"%string.
    assert (T : JobMatcher.titlesMatch "software engineer" "ux designer" = false)
      by reflexivity.
    rewrite T, Fam.
    split; intros E; rewrite E; [reflexivity|].
    destruct (JobMatcher.relatedRoleType _ _); lia.
Qed.


Module ContentFacts.
Local Open Scope Q_scope.

Lemma round_min100 : forall x : Q,
  JS.round (Qmin 100 x) = Z.min 100 (JS.round x).
Proof.
  intros x. destruct (Qlt_le_dec 100 x) as [H|H].
  - rewrite (RoundFacts.round_compat _ 100) by (apply Q.min_l; lra).
    change 100 with (inject_Z 100). rewrite RoundFacts.round_Z.
    pose proof (RoundFacts.round_mono (inject_Z 100) x) as M.
    rewrite RoundFacts.round_Z in M. unfold inject_Z in M. specialize (M ltac:(lra)). lia.
  - rewrite (RoundFacts.round_compat _ x) by (apply Q.min_r; lra).
    pose proof (RoundFacts.round_mono x (inject_Z 100)) as M.
    rewrite RoundFacts.round_Z in M. unfold inject_Z in M. specialize (M ltac:(lra)). lia.
Qed.

End ContentFacts.

(** C7: with [jobText] the lower-cased title and description, if no term of
    the fixed reference vocabulary occurs in it, the content score is 75
    when the candidate has a technical skill and 50 otherwise; if [n > 0]
    reference terms occur and [m] candidate skills occur, the score is
    [min(100, round(120 * m / n))]. *)
Theorem calculateContentScore_spec : forall (r : Profile.t) (j : Job.t),
  let jobText := (JS.toLowerCase (Job.title j) ++ " " ++ JS.toLowerCase (Job.description j))%string in
  let skills := Skills.technical (Profile.skills r) in
  let referenceCount := JobMatcher.countIf (JS.includes jobText) JobMatcher.technicalTerms in
  let matchedSkills := JobMatcher.countIf (JS.includes jobText) (map JS.toLowerCase skills) in
  (referenceCount = 0 -> skills <> [] -> JobMatcher.calculateContentScore r j = 75) /\
  (referenceCount = 0 -> skills = [] -> JobMatcher.calculateContentScore r j = 50) /\
  (0 < referenceCount ->
     JobMatcher.calculateContentScore r j =
     Z.min 100 (JS.round (inject_Z (120 * matchedSkills) / inject_Z referenceCount))).
Proof.
  intros r j. cbv zeta.
  unfold JobMatcher.calculateContentScore. cbv zeta.
  remember (JS.toLowerCase (Job.title j) ++ " " ++ JS.toLowerCase (Job.description j)) as jobText.
  remember (Skills.technical (Profile.skills r)) as skills.
  remember (JobMatcher.countIf (JS.includes jobText) JobMatcher.technicalTerms) as rc.
  remember (JobMatcher.countIf (JS.includes jobText) (map JS.toLowerCase skills)) as m.
  split; [|split].
  - intros H0 Hne. subst rc. rewrite H0. cbn [Z.eqb].
    destruct skills as [|x l]; [congruence|]. reflexivity.
  - intros H0 He. rewrite H0, He. reflexivity.
  - intros Hpos. replace (rc =? 0) with false by (symmetry; apply Z.eqb_neq; lia).
    rewrite Z.max_l by lia.
    rewrite ContentFacts.round_min100. f_equal.
    apply RoundFacts.round_compat.
    rewrite inject_Z_mult.
    assert (Hq : ~ inject_Z rc == 0).
    { intro E. change 0%Q with (inject_Z 0) in E. apply (proj1 (inject_Z_injective rc 0)) in E. lia. }
    field. exact Hq.
Qed.

Module ExperienceFacts.
Import ResumeParser.

Definition nonnegEntry (e : string * Cat.t) : Prop := 0 <= Cat.years (snd e).

Lemma addToCategory_nonneg : forall ty t y m,
  0 <= y -> Forall nonnegEntry m -> Forall nonnegEntry (addToCategory ty t y m).
Proof.
  intros ty t y m Hy; induction m as [|[k e] m IH]; intros Hm; simpl.
  - constructor; [unfold nonnegEntry; simpl; lia|constructor].
  - inversion Hm as [|? ? He Hm']; subst.
    destruct (String.eqb ty k).
    + constructor; [unfold nonnegEntry in *; simpl in *; lia|exact Hm'].
    + constructor; [exact He|now apply IH].
Qed.

Lemma scanTypes_nonneg : forall role types m,
  0 <= yearsToAdd role -> Forall nonnegEntry m ->
  Forall nonnegEntry
    (fold_left (fun m '(ty, keywords) =>
       if existsb (JS.includes (JS.toLowerCase (Role.title role))) keywords
       then addToCategory ty (Role.title role) (yearsToAdd role) m
       else m) types m).
Proof.
  intros role types; induction types as [|[ty kws] types IH]; intros m Hy Hm; simpl; [exact Hm|].
  apply IH; [exact Hy|]. destruct (existsb _ kws); [now apply addToCategory_nonneg|exact Hm].
Qed.

Lemma calculateExperienceByRole_nonneg : forall roles,
  (forall x y, In x roles -> Role.years x = Some y -> 0 <= y) ->
  Forall nonnegEntry (calculateExperienceByRole roles).
Proof.
  intros roles Hr. unfold calculateExperienceByRole.
  assert (Hfold : forall l m, (forall x y, In x l -> Role.years x = Some y -> 0 <= y) ->
            Forall nonnegEntry m ->
            Forall nonnegEntry (fold_left (fun m role =>
              fold_left (fun m '(ty, keywords) =>
                if existsb (JS.includes (JS.toLowerCase (Role.title role))) keywords
                then addToCategory ty (Role.title role) (yearsToAdd role) m
                else m) roleTypes m) l m)).
  { induction l as [|x l IH]; intros m Hl Hm; cbn [fold_left]; [exact Hm|].
    apply IH; [intros x' y' Hi Hy'; exact (Hl x' y' (or_intror Hi) Hy')|].
    apply scanTypes_nonneg; [|exact Hm].
    unfold yearsToAdd. destruct (Role.years x) as [z|] eqn:E; [exact (Hl x z (or_introl eq_refl) E)|lia]. }
  specialize (Hfold roles [] Hr (Forall_nil _)).
  apply Forall_map. eapply Forall_impl; [|exact Hfold].
  intros [ty e] He. unfold nonnegEntry in *. simpl in *.
  destruct ((Cat.years e =? 0) && (0 <? Z.of_nat (List.length (Cat.roles e)))); simpl; lia.
Qed.

Definition sumYears (m : list (string * Cat.t)) : Z :=
  fold_left (fun acc '(_, e) => acc + Cat.years e) m 0.

Lemma sum_nonneg_aux : forall m a,
  Forall nonnegEntry m -> a <= fold_left (fun acc '(_, e) => acc + Cat.years e) m a.
Proof.
  induction m as [|[k e] m IH]; intros a Hm; simpl; [lia|].
  inversion Hm as [|? ? He Hm']; subst. unfold nonnegEntry in He; simpl in He.
  specialize (IH (a + Cat.years e) Hm'). lia.
Qed.

End ExperienceFacts.

(** C3 (counterexample): a role line whose date range runs backwards,
    "Software Engineer 2023 - 2019", gives that role [years = -4]; the
    Engineering category sums to -4 and [totalYearsExperience] is -4. *)
Lemma total_experience_negative :
  Role.years (hd (Role.mk "" None None None)
                 (Profile.roles (ResumeParser.extractInformation 2026 "Software Engineer 2023 - 2019")))
    = Some (-4) /\
  Profile.totalYearsExperience (ResumeParser.extractInformation 2026 "Software Engineer 2023 - 2019") = -4.
Proof. split; vm_compute; reflexivity. Qed.

(** C3 (amended): [totalYearsExperience] is the sum of the category years
    capped at 30, so it is at most 30; it is non-negative whenever no
    detected role has a negative year span. *)
Theorem totalYearsExperience_bounds : forall (now : Z) (text : string),
  let p := ResumeParser.extractInformation now text in
  Profile.totalYearsExperience p =
    Z.min (ExperienceFacts.sumYears (Profile.experienceByRole p)) 30 /\
  Profile.totalYearsExperience p <= 30 /\
  ((forall x y, In x (Profile.roles p) -> Role.years x = Some y -> 0 <= y) ->
   0 <= Profile.totalYearsExperience p).
Proof.
  intros now text p. subst p. unfold ResumeParser.extractInformation. cbv zeta.
  cbn [Profile.totalYearsExperience Profile.experienceByRole Profile.roles].
  unfold ResumeParser.calculateTotalExperience. fold (ExperienceFacts.sumYears
    (ResumeParser.calculateExperienceByRole (ResumeParser.extractRoles now text))).
  split; [reflexivity|split; [lia|]].
  intros H. apply ExperienceFacts.calculateExperienceByRole_nonneg in H.
  pose proof (ExperienceFacts.sum_nonneg_aux _ 0 H). unfold ExperienceFacts.sumYears. lia.
Qed.

Module ParseFacts.
Import ResumeParser.

Definition supportedExts : list string := [".pdf"; ".docx"; ".txt"].

(** the profile [extractInformation] returns for an empty text *)
Definition emptyProfile : Profile.t :=
  Profile.mk "" [] [] 0 (Skills.mk [] [] []) "entry" []
             (Some (Primary.mk "General" "Professional" None)) [].

Lemma extractInformation_fields : forall now text,
  let roles := extractRoles now text in
  let experienceByRole := calculateExperienceByRole roles in
  let p := extractInformation now text in
  Profile.roles p = roles /\
  Profile.experienceByRole p = experienceByRole /\
  Profile.totalYearsExperience p = calculateTotalExperience experienceByRole /\
  Profile.primaryRole p = Some (determinePrimaryRole roles experienceByRole).
Proof. intros; repeat split. Qed.

End ParseFacts.

(** C8 (counterexample): an empty [.txt] file is not rejected; [parse]
    returns a complete profile with default field values. *)
Lemma parse_empty_text_succeeds :
  ResumeParser.parse 2026 ".txt" "" = inr ParseFacts.emptyProfile.
Proof. vm_compute. reflexivity. Qed.

(** C8 (amended): [parse] throws exactly when the lower-cased extension
    is not one of [.pdf], [.docx], [.txt] (decoder failures apart); for a
    supported extension it returns the complete profile of
    [extractInformation], which never fails: on the empty text every field
    has its default, and whenever no role is detected the experience map
    is empty, the total is 0 and the primary role is General /
    Professional without [yearsInRole]. *)
Theorem parse_fails_only_on_format : forall (now : Z),
  (forall ext text,
     (exists msg, ResumeParser.parse now ext text = inl msg) <->
     ~ In (JS.toLowerCase ext) ParseFacts.supportedExts) /\
  (forall ext text,
     In (JS.toLowerCase ext) ParseFacts.supportedExts ->
     ResumeParser.parse now ext text = inr (ResumeParser.extractInformation now text)) /\
  ResumeParser.extractInformation now "" = ParseFacts.emptyProfile /\
  (forall text,
     ResumeParser.extractRoles now text = [] ->
     let p := ResumeParser.extractInformation now text in
     Profile.experienceByRole p = [] /\ Profile.totalYearsExperience p = 0 /\
     Profile.primaryRole p = Some (Primary.mk "General" "Professional" None)).
Proof.
  intros now. split; [|split; [|split]].
  - intros ext text. unfold ResumeParser.parse, ParseFacts.supportedExts.
    set (e := JS.toLowerCase ext).
    destruct (String.eqb_spec e ".pdf") as [H1|H1];
    [|destruct (String.eqb_spec e ".docx") as [H2|H2];
      [|destruct (String.eqb_spec e ".txt") as [H3|H3]]]; simpl.
    + split; [intros [msg Hm]; discriminate|intros Hn; exfalso; apply Hn; left; auto].
    + split; [intros [msg Hm]; discriminate|intros Hn; exfalso; apply Hn; right; left; auto].
    + split; [intros [msg Hm]; discriminate|intros Hn; exfalso; apply Hn; right; right; left; auto].
    + split; [intros _|intros _; eexists; reflexivity].
      intros [H|[H|[H|[]]]]; congruence.
  - intros ext text Hin. unfold ResumeParser.parse, ParseFacts.supportedExts in *.
    destruct Hin as [H|[H|[H|[]]]]; rewrite <- H; reflexivity.
  - vm_compute. reflexivity.
  - intros text Hr p. subst p.
    destruct (ParseFacts.extractInformation_fields now text) as [_ [-> [-> ->]]].
    rewrite Hr. split; [|split]; reflexivity.
Qed.

Module RoleFacts.
Import ResumeParser RoleScan.

Lemma firstByTitle_seen_ext : forall l s1 s2,
  (forall t, existsb (String.eqb t) s1 = existsb (String.eqb t) s2) ->
  firstByTitle s1 l = firstByTitle s2 l.
Proof.
  induction l as [|x l IH]; intros s1 s2 H; simpl; [reflexivity|].
  rewrite H. destruct (existsb (String.eqb (normTitle x)) s2).
  - now apply IH.
  - f_equal. apply IH. intros t. simpl. now rewrite H.
Qed.

Lemma titleSeen_norm : forall acc x,
  titleSeen acc (Role.title x) = existsb (String.eqb (normTitle x)) (map normTitle acc).
Proof.
  unfold titleSeen, normTitle. induction acc as [|a acc IH]; intros x; simpl; [reflexivity|].
  rewrite IH, String.eqb_sym. reflexivity.
Qed.

Lemma pushRole_fold : forall l acc,
  fold_left pushRole l acc = (acc ++ firstByTitle (map normTitle acc) l)%list.
Proof.
  induction l as [|x l IH]; intros acc; cbn [fold_left firstByTitle].
  - now rewrite app_nil_r.
  - unfold pushRole at 2. rewrite titleSeen_norm.
    destruct (existsb (String.eqb (normTitle x)) (map normTitle acc)).
    + apply IH.
    + rewrite IH, <- app_assoc. simpl. f_equal. f_equal.
      apply firstByTitle_seen_ext. intros t.
      rewrite map_app, existsb_app. simpl. now rewrite orb_false_r, orb_comm.
Qed.

Lemma fold_filter_map {A B C : Type} (g : C -> B -> C) (p : A -> bool) (h : A -> B) :
  forall l acc,
  fold_left (fun f x => if p x then g f (h x) else f) l acc =
  fold_left g (map h (filter p l)) acc.
Proof.
  induction l as [|x l IH]; intros acc; simpl; [reflexivity|].
  destruct (p x); simpl; apply IH.
Qed.

Lemma fold_map {A B C : Type} (g : C -> B -> C) (h : A -> B) :
  forall l acc, fold_left (fun f x => g f (h x)) l acc = fold_left g (map h l) acc.
Proof. induction l as [|x l IH]; intros acc; simpl; [reflexivity|apply IH]. Qed.

Lemma scanLine_eq : forall now found line,
  scanLine now found line = fold_left pushRole (lineCandidates now line) found.
Proof.
  intros now found line.
  exact (fold_filter_map pushRole (JS.includes (JS.trim (JS.toLowerCase line)))
                         (parseRoleLine now line) roleTitles found).
Qed.

Lemma scanPattern_eq : forall text found pattern,
  scanPattern text found pattern = fold_left pushRole (patternCandidates text pattern) found.
Proof.
  intros text found pattern.
  exact (fold_map pushRole
    (fun m => Role.mk (JS.trim (match Regex.group (list_ascii_of_string text) m 1 with
                                 | Some g => g | None => EmptyString end))
                      (Some (JS.trim (match Regex.group (list_ascii_of_string text) m 2 with
                                       | Some g => g | None => EmptyString end)))
                      None None)
    (Regex.execAll true (list_ascii_of_string text) pattern) found).
Qed.

Lemma fold_flat_map {A B C : Type} (f : C -> A -> C) (g : C -> B -> C) (h : A -> list B) :
  (forall c a, f c a = fold_left g (h a) c) ->
  forall l acc, fold_left f l acc = fold_left g (flat_map h l) acc.
Proof.
  intros Hf; induction l as [|x l IH]; intros acc; simpl; [reflexivity|].
  now rewrite IH, Hf, fold_left_app.
Qed.

Lemma fold_two {A C : Type} (f : C -> A -> C) (a b : A) (x : C) :
  fold_left f [a; b] x = f (f x a) b.
Proof. reflexivity. Qed.

Lemma extractRoles_scan : forall now text,
  extractRoles now text = firstByTitle [] (roleCandidates now text).
Proof.
  intros now text. unfold extractRoles, roleCandidates.
  rewrite fold_two, !scanPattern_eq, (fold_flat_map _ _ _ (scanLine_eq now)).
  rewrite <- !fold_left_app, pushRole_fold, app_assoc. reflexivity.
Qed.

Lemma firstByTitle_nodup : forall l seen,
  NoDup (map normTitle (firstByTitle seen l)) /\
  (forall x, In x (firstByTitle seen l) -> existsb (String.eqb (normTitle x)) seen = false).
Proof.
  induction l as [|a l IH]; intros seen; simpl.
  - split; [constructor|intros x []].
  - destruct (existsb (String.eqb (normTitle a)) seen) eqn:E; [apply IH|].
    destruct (IH (normTitle a :: seen)) as [Hn Hs]. split.
    + simpl. constructor; [|exact Hn].
      intros Hin. apply in_map_iff in Hin as [y [Hy Hiny]].
      specialize (Hs y Hiny). simpl in Hs. rewrite Hy, String.eqb_refl in Hs. discriminate.
    + intros x [<-|Hx]; [exact E|].
      specialize (Hs x Hx). simpl in Hs. apply orb_false_iff in Hs. tauto.
Qed.

End RoleFacts.

(** C9 (counterexample): "Web Developer" appears before "Software
    Engineer" in the text, but the lexicon pass runs over every line before
    the role patterns, so the profile lists "Software Engineer" first. *)
Lemma roles_not_in_text_order :
  let t := "Web Developer at Acme" ++ String "010"%char "Software Engineer" in
  String.index 0 "Web Developer" t = Some 0%nat /\
  String.index 0 "Software Engineer" t = Some 22%nat /\
  map Role.title (Profile.roles (ResumeParser.extractInformation 2026 t)) =
    ["Software Engineer"; "Web Developer"].
Proof. vm_compute. split; [reflexivity|split; reflexivity]. Qed.

(** C9 (amended): the roles of the profile are the role candidates in scan
    order (the lexicon pass over all lines, then the matches of the first
    and of the second role pattern), keeping the first candidate of each
    case-insensitive title; hence no two roles have titles equal up to
    case. *)
Theorem extractRoles_dedup : forall (now : Z) (text : string),
  Profile.roles (ResumeParser.extractInformation now text) =
    RoleScan.firstByTitle [] (RoleScan.roleCandidates now text) /\
  NoDup (map RoleScan.normTitle (Profile.roles (ResumeParser.extractInformation now text))).
Proof.
  intros now text. change (Profile.roles (ResumeParser.extractInformation now text))
    with (ResumeParser.extractRoles now text).
  rewrite RoleFacts.extractRoles_scan. split; [reflexivity|].
  apply RoleFacts.firstByTitle_nodup.
Qed.
Module TitleFacts.
Import Regex.

Section Captures.
Variable ic : bool.
Variable s : list ascii.

(** a binding of group 1 spans at least one character, the first of which
    is not white space *)
Definition goodEntry (e : nat * (nat * nat)) : Prop :=
  let '(n, (a, b)) := e in
  n = 1%nat -> (a < b)%nat /\ exists ch, nth_error s a = Some ch /\ JS.isSpace ch = false.

(** every group 1 of the expression starts with a class that excludes
    white space *)
Fixpoint wf (r : re) : Prop :=
  match r with
  | Seq r1 r2 | Alt r1 r2 => wf r1 /\ wf r2
  | Star _ r1 => wf r1
  | Group n r1 =>
      wf r1 /\ (n = 1%nat -> exists p r', r1 = Seq (Cls p) r' /\
                 forall b, clsMatch ic p b = true -> JS.isSpace b = false)
  | _ => True
  end.

(** what a match of [r] from [i] to [j] tells about its first character *)
Definition headInfo (r : re) (i j : nat) : Prop :=
  match r with
  | Cls p => j = S i /\ exists b, nth_error s i = Some b /\ clsMatch ic p b = true
  | Seq (Cls p) _ => (S i <= j)%nat /\ exists b, nth_error s i = Some b /\ clsMatch ic p b = true
  | _ => True
  end.

Definition grows (c c' : caps) : Prop :=
  (exists d, c' = d ++ c)%list /\ (Forall goodEntry c -> Forall goodEntry c').

Lemma grows_refl : forall c, grows c c.
Proof. intros c. split; [exists []; reflexivity|auto]. Qed.

Lemma grows_trans : forall c1 c2 c3, grows c1 c2 -> grows c2 c3 -> grows c1 c3.
Proof.
  intros c1 c2 c3 [[d1 ->] F1] [[d2 ->] F2]. split; [exists (d2 ++ d1)%list; now rewrite app_assoc|auto].
Qed.

Lemma starLoop_inv : forall fuel r1,
  (forall i c k x, mt ic s fuel r1 i c k = Some x ->
     exists j c', (i <= j)%nat /\ headInfo r1 i j /\ k j c' = Some x /\ grows c c') ->
  forall g k f i c x, starLoop (mt ic s fuel r1) g k f i c = Some x ->
  exists j c', (i <= j)%nat /\ k j c' = Some x /\ grows c c'.
Proof.
  intros fuel r1 IH g k f. induction f as [|f IHf]; intros i c x H; cbn [starLoop] in H.
  - exists i, c. split; [lia|split; [exact H|apply grows_refl]].
  - assert (Hstep : mt ic s fuel r1 i c
             (fun j c' => if Nat.ltb i j then starLoop (mt ic s fuel r1) g k f j c' else None)
             = Some x -> exists j c', (i <= j)%nat /\ k j c' = Some x /\ grows c c').
    { intros Hm. apply IH in Hm as (j & c1 & Hij & _ & Hk & G1).
      destruct (Nat.ltb_spec i j); [|discriminate].
      apply IHf in Hk as (j2 & c2 & Hj2 & Hk2 & G2).
      exists j2, c2. split; [lia|split; [exact Hk2|eapply grows_trans; eauto]]. }
    destruct g.
    + destruct (mt ic s fuel r1 i c _) eqn:E.
      * inversion H; subst. now apply Hstep.
      * exists i, c. split; [lia|split; [exact H|apply grows_refl]].
    + destruct (k i c) eqn:E.
      * inversion H; subst. exists i, c. split; [lia|split; [exact E|apply grows_refl]].
      * now apply Hstep.
Qed.

Lemma mt_inv : forall fuel r, wf r -> forall i c k x, mt ic s fuel r i c k = Some x ->
  exists j c', (i <= j)%nat /\ headInfo r i j /\ k j c' = Some x /\ grows c c'.
Proof.
  intros fuel r. induction r as [| a | p | | r1 IH1 r2 IH2 | r1 IH1 r2 IH2 | g r1 IH1 | n r1 IH1 |];
    intros W i c k x H; cbn [mt] in H.
  - exists i, c. split; [lia|split; [exact I|split; [exact H|apply grows_refl]]].
  - destruct (nth_error s i) as [b|]; [|discriminate].
    destruct (chrEq ic a b); [|discriminate].
    exists (S i), c. split; [lia|split; [exact I|split; [exact H|apply grows_refl]]].
  - destruct (nth_error s i) as [b|] eqn:E; [|discriminate].
    destruct (clsMatch ic p b) eqn:Eb; [|discriminate].
    exists (S i), c. split; [lia|split; [split; [reflexivity|exists b; auto]|split; [exact H|apply grows_refl]]].
  - destruct (nth_error s i) as [b|]; [|discriminate].
    destruct (JS.isLineTerminator b); [discriminate|].
    exists (S i), c. split; [lia|split; [exact I|split; [exact H|apply grows_refl]]].
  - destruct W as [W1 W2].
    apply IH1 in H as (j1 & c1 & Hij1 & Hh1 & H1 & G1); [|exact W1].
    apply IH2 in H1 as (j2 & c2 & Hij2 & _ & H2 & G2); [|exact W2].
    exists j2, c2. split; [lia|split; [|split; [exact H2|eapply grows_trans; eauto]]].
    destruct r1; cbn [headInfo] in *; try exact I.
    destruct Hh1 as [-> Hb]. split; [lia|exact Hb].
  - destruct W as [W1 W2].
    destruct (mt ic s fuel r1 i c k) eqn:E.
    + inversion H; subst.
      apply IH1 in E as (j & c' & Hij & _ & Hk & G); [|exact W1].
      exists j, c'. split; [exact Hij|split; [exact I|split; [exact Hk|exact G]]].
    + apply IH2 in H as (j & c' & Hij & _ & Hk & G); [|exact W2].
      exists j, c'. split; [exact Hij|split; [exact I|split; [exact Hk|exact G]]].
  - apply (starLoop_inv fuel r1 (IH1 W)) in H as (j & c' & Hij & Hk & G).
    exists j, c'. split; [exact Hij|split; [exact I|split; [exact Hk|exact G]]].
  - destruct W as [W1 Wn].
    apply IH1 in H as (j & c1 & Hij & Hh & Hk & [[d Hd] F]); [|exact W1].
    exists j, ((n, (i, j)) :: c1). split; [exact Hij|split; [exact I|split; [exact Hk|]]].
    split; [exists ((n, (i, j)) :: d); subst; reflexivity|].
    intros Fc. constructor; [|now apply F].
    intros Hn. destruct (Wn Hn) as (p & r' & -> & Hp).
    cbn [headInfo] in Hh. destruct Hh as [Hle (b & Hb & Hm)].
    split; [lia|exists b; split; [exact Hb|now apply Hp]].
  - destruct (isBoundary s i); [|discriminate].
    exists i, c. split; [lia|split; [exact I|split; [exact H|apply grows_refl]]].
Qed.

End Captures.

Lemma searchAux_some : forall ic s r f i p j c,
  searchAux ic s r f i = Some (p, j, c) -> execAt ic s r p = Some (j, c).
Proof.
  intros ic s r f; induction f as [|f IH]; intros i p j c H; cbn [searchAux] in H; [discriminate|].
  destruct (execAt ic s r i) as [[j' c']|] eqn:E.
  - inversion H; subst. exact E.
  - eapply IH; exact H.
Qed.

Lemma execAllAux_in : forall ic s r f last p j c,
  In (p, j, c) (execAllAux ic s r f last) -> execAt ic s r p = Some (j, c).
Proof.
  intros ic s r f; induction f as [|f IH]; intros last p j c H; cbn [execAllAux] in H; [contradiction|].
  destruct (search ic s r last) as [[[p' j'] c']|] eqn:E; [|contradiction].
  destruct H as [H|H].
  - inversion H; subst. unfold search in E.
    destruct (Nat.leb last (List.length s)); [|discriminate].
    eapply searchAux_some; exact E.
  - eapply IH; exact H.
Qed.

Lemma capGet_in : forall c n v, In (n, v) c -> exists v', capGet c n = Some v' /\ In (n, v') c.
Proof.
  induction c as [|[m w] c IH]; intros n v H; cbn [capGet]; [contradiction|].
  destruct (Nat.eqb_spec n m) as [->|Hne].
  - exists w. split; [reflexivity|left; reflexivity].
  - destruct H as [H|H]; [inversion H; congruence|].
    destruct (IH n v H) as (v' & H1 & H2). exists v'. split; [exact H1|right; exact H2].
Qed.

Lemma group1_good : forall ic s fuel r1 r2 i k0 x,
  wf ic (Seq (Group 1 r1) r2) ->
  mt ic s fuel (Seq (Group 1 r1) r2) i [] k0 = Some x ->
  exists j c, k0 j c = Some x /\
    exists a b, capGet c 1 = Some (a, b) /\ goodEntry s (1%nat, (a, b)).
Proof.
  intros ic s fuel r1 r2 i k0 x [[W1 Wg] W2] H. cbn [mt] in H.
  apply (mt_inv ic s fuel r1 W1) in H as (j & c1 & Hij & Hh & H1 & [_ F1]).
  apply (mt_inv ic s fuel r2 W2) in H1 as (j2 & c2 & _ & _ & H2 & [[d Hd] F2]).
  assert (Hg : goodEntry s (1%nat, (i, j))).
  { intros _. destruct (Wg eq_refl) as (p & r' & -> & Hp).
    cbn [headInfo] in Hh. destruct Hh as [Hle (b & Hb & Hm)].
    split; [lia|exists b; split; [exact Hb|now apply Hp]]. }
  assert (Fc2 : Forall (goodEntry s) c2) by (apply F2; constructor; [exact Hg|apply F1; constructor]).
  assert (Hin : In (1%nat, (i, j)) c2) by (subst c2; apply in_or_app; right; left; reflexivity).
  destruct (capGet_in c2 1 (i, j) Hin) as ([a b] & Hc & Hin').
  exists j2, c2. split; [exact H2|exists a, b; split; [exact Hc|]].
  rewrite Forall_forall in Fc2. exact (Fc2 _ Hin').
Qed.

Lemma skipn_nth : forall (l : list ascii) a ch,
  nth_error l a = Some ch -> exists t, skipn a l = ch :: t.
Proof.
  induction l as [|y l IH]; intros [|a] ch H; cbn in H |- *; try discriminate.
  - inversion H; subst. eauto.
  - eauto.
Qed.

Lemma dropSpaces_app_nonspace : forall ch l,
  JS.isSpace ch = false -> JS.dropSpaces (l ++ [ch]) <> [].
Proof.
  intros ch l H; induction l as [|y l IH]; cbn [app JS.dropSpaces].
  - rewrite H. discriminate.
  - destruct (JS.isSpace y); [exact IH|discriminate].
Qed.

Lemma trim_head_nonspace : forall ch l,
  JS.isSpace ch = false -> JS.truthy (JS.trim (string_of_list_ascii (ch :: l))) = true.
Proof.
  intros ch l H. unfold JS.trim. rewrite list_ascii_of_string_of_list_ascii.
  cbn [JS.dropSpaces]. rewrite H. cbn [rev].
  pose proof (dropSpaces_app_nonspace ch (rev l) H) as Hn.
  destruct (JS.dropSpaces (rev l ++ [ch])%list) as [|a l'] eqn:E; [congruence|].
  cbn [rev]. destruct (rev l' ++ [a])%list as [|b l''] eqn:E2.
  - destruct (rev l'); discriminate.
  - reflexivity.
Qed.

Lemma slice_title : forall s a b ch,
  (a < b)%nat -> nth_error s a = Some ch -> JS.isSpace ch = false ->
  JS.truthy (JS.trim (slice s a b)) = true.
Proof.
  intros s a b ch Hab Hn Hs. unfold slice.
  destruct (skipn_nth s a ch Hn) as [t Ht]. rewrite Ht.
  replace (b - a)%nat with (S (b - a - 1)) by lia. cbn [firstn].
  now apply trim_head_nonspace.
Qed.

Lemma upper_class_nonspace : forall b, clsMatch true isUpper b = true -> JS.isSpace b = false.
Proof.
  intros b; destruct b as [[] [] [] [] [] [] [] []]; vm_compute; intros H;
    first [reflexivity|discriminate H].
Qed.

Ltac solve_wf :=
  repeat match goal with
         | |- _ /\ _ => split
         | |- True => exact I
         | |- (2 = 1)%nat -> _ => intros ?; discriminate
         | |- (1 = 1)%nat -> _ =>
             intros _; eexists; eexists; split; [reflexivity|exact upper_class_nonspace]
         end.

Lemma rolePattern_shape : forall pat,
  pat = ResumeParser.rolePattern1 \/ pat = ResumeParser.rolePattern2 ->
  exists r1 r2, pat = Seq (Group 1 r1) r2 /\ wf true (Seq (Group 1 r1) r2).
Proof.
  intros pat [->| ->]; eexists; eexists; (split; [reflexivity|]); cbn; solve_wf.
Qed.

Definition patternRole (s : list ascii) (m : nat * nat * caps) : Role.t :=
  Role.mk (JS.trim (match group s m 1 with Some g => g | None => EmptyString end))
          (Some (JS.trim (match group s m 2 with Some g => g | None => EmptyString end)))
          None None.

Lemma patternCandidates_eq : forall text pat,
  RoleScan.patternCandidates text pat =
  map (patternRole (list_ascii_of_string text)) (execAll true (list_ascii_of_string text) pat).
Proof. intros. reflexivity. Qed.

Lemma patternCandidates_titles : forall text pat x,
  pat = ResumeParser.rolePattern1 \/ pat = ResumeParser.rolePattern2 ->
  In x (RoleScan.patternCandidates text pat) -> JS.truthy (Role.title x) = true.
Proof.
  intros text pat x Hp Hin. rewrite patternCandidates_eq in Hin.
  apply in_map_iff in Hin as ([[p j] c] & Hx & Hin). subst x.
  apply execAllAux_in in Hin. unfold execAt in Hin.
  destruct (rolePattern_shape pat Hp) as (r1 & r2 & Hpat & W). rewrite Hpat in Hin.
  apply group1_good in Hin as (j' & c' & Hk & a & b & Hc & Hg); [|exact W].
  inversion Hk; subst c'.
  destruct (Hg eq_refl) as [Hab (ch & Hch & Hs)].
  unfold patternRole, group. cbn [Role.title]. rewrite Hc.
  exact (slice_title _ a b ch Hab Hch Hs).
Qed.

Lemma lexicon_titles :
  forallb (fun r => JS.truthy (ResumeParser.capitalizeTitle r)) ResumeParser.roleTitles = true.
Proof. vm_compute. reflexivity. Qed.

Lemma parseRoleLine_title : forall now line role,
  Role.title (ResumeParser.parseRoleLine now line role) = ResumeParser.capitalizeTitle role.
Proof.
  intros. unfold ResumeParser.parseRoleLine. cbv zeta. cbn [Role.title]. reflexivity.
Qed.

Lemma lineCandidates_eq : forall now line,
  RoleScan.lineCandidates now line =
  map (ResumeParser.parseRoleLine now line)
      (filter (JS.includes (JS.trim (JS.toLowerCase line))) ResumeParser.roleTitles).
Proof. intros. reflexivity. Qed.

Lemma lineCandidates_titles : forall now line x,
  In x (RoleScan.lineCandidates now line) -> JS.truthy (Role.title x) = true.
Proof.
  intros now line x Hin. rewrite lineCandidates_eq in Hin.
  apply in_map_iff in Hin as (role & Hx & Hin). apply filter_In in Hin as [Hin _].
  subst x. rewrite parseRoleLine_title.
  pose proof lexicon_titles as L. rewrite forallb_forall in L. exact (L role Hin).
Qed.

Lemma firstByTitle_incl : forall l seen x, In x (RoleScan.firstByTitle seen l) -> In x l.
Proof.
  induction l as [|y l IH]; intros seen x H; cbn [RoleScan.firstByTitle] in H; [exact H|].
  destruct (existsb _ seen).
  - right. eapply IH; exact H.
  - destruct H as [<-|H]; [left; reflexivity|right; eapply IH; exact H].
Qed.

Lemma extractRoles_titles : forall now text x,
  In x (ResumeParser.extractRoles now text) -> JS.truthy (Role.title x) = true.
Proof.
  intros now text x H. rewrite RoleFacts.extractRoles_scan in H.
  apply firstByTitle_incl in H. unfold RoleScan.roleCandidates in H.
  apply in_app_iff in H as [H|H]; [|apply in_app_iff in H as [H|H]].
  - apply in_flat_map in H as (line & _ & H). eapply lineCandidates_titles; exact H.
  - eapply patternCandidates_titles; [left; reflexivity|exact H].
  - eapply patternCandidates_titles; [right; reflexivity|exact H].
Qed.

End TitleFacts.

Module NoCategoryFacts.
Import ResumeParser.

Definition noCategory (x : Role.t) : Prop :=
  forall ty keywords, In (ty, keywords) roleTypes ->
  existsb (JS.includes (JS.toLowerCase (Role.title x))) keywords = false.

Lemma fold_left_id {A C : Type} (g : C -> A -> C) :
  forall l m, (forall m x, In x l -> g m x = m) -> fold_left g l m = m.
Proof.
  induction l as [|x l IH]; intros m H; cbn [fold_left]; [reflexivity|].
  rewrite (H m x (or_introl eq_refl)). apply IH. intros m' y Hy. apply H. right. exact Hy.
Qed.

Lemma calculateExperienceByRole_none : forall roles,
  (forall x, In x roles -> noCategory x) -> calculateExperienceByRole roles = [].
Proof.
  intros roles H. unfold calculateExperienceByRole. cbv zeta.
  rewrite fold_left_id; [reflexivity|].
  intros m x Hx. cbv beta zeta. apply fold_left_id.
  intros m' [ty kws] Hin. cbv beta iota. rewrite (H x Hx ty kws Hin). reflexivity.
Qed.

End NoCategoryFacts.

(** C10: with no detected role the primary role is General /
    Professional with no [yearsInRole]; when roles are detected but none
    matches a keyword of the five categories, the primary role has type
    General, [yearsInRole = 0] and the first detected role's title. *)
Theorem primaryRole_defaults : forall (now : Z) (text : string),
  let p := ResumeParser.extractInformation now text in
  (Profile.roles p = [] ->
   Profile.primaryRole p = Some (Primary.mk "General" "Professional" None)) /\
  (forall r rest, Profile.roles p = r :: rest ->
   (forall x, In x (Profile.roles p) -> NoCategoryFacts.noCategory x) ->
   Profile.primaryRole p = Some (Primary.mk "General" (Role.title r) (Some 0))).
Proof.
  intros now text p. subst p.
  destruct (ParseFacts.extractInformation_fields now text) as [Hr [_ [_ Hp]]].
  rewrite Hp, Hr. split.
  - intros H0. rewrite H0. reflexivity.
  - intros r rest H0 Hn.
    rewrite (NoCategoryFacts.calculateExperienceByRole_none _ Hn).
    assert (Ht : JS.truthy (Role.title r) = true).
    { apply (TitleFacts.extractRoles_titles now text). rewrite H0. left. reflexivity. }
    rewrite H0. unfold ResumeParser.determinePrimaryRole. cbn [fold_left]. rewrite Ht.
    reflexivity.
Qed.
Module Examples.
(** eight years in total, two of them in Product *)
Definition pivotProfile : Profile.t :=
  Profile.mk "" [Role.mk "Product Manager" None (Some 2) None;
                 Role.mk "Software Engineer" None (Some 6) None]
             [("Product", Cat.mk 2 ["Product Manager"]);
              ("Engineering", Cat.mk 6 ["Software Engineer"])]
             8 (Skills.mk [] [] []) "senior" []
             (Some (Primary.mk "Engineering" "Product Manager" (Some 6))) [].
Definition seniorPM : Job.t := Job.mk "Senior Product Manager" "Acme" "Remote" "" "".
Definition plainPM : Job.t := Job.mk "Product Manager" "Acme" "Remote" "" "".
Definition frontendProfile : Profile.t :=
  Profile.mk "" [] [] 0 (Skills.mk ["React"] [] []) "entry" []
             (Some (Primary.mk "Engineering" "Frontend Engineer" None)) [].
Definition frontendJob : Job.t :=
  Job.mk "Frontend Developer" "Acme" "Remote" "We use react and typescript" "".
Definition scoresAt (t : Q) : JobMatcher.Scores := JobMatcher.mkScores 0 0 0 t.
Definition sweScored : JobMatcher.ScoredJob :=
  JobMatcher.scoreJob RoleScoreFacts.uxProfile RoleScoreFacts.sweJob.
Definition consultantRole : Role.t := Role.mk "Consultant" None None (Some "Consultant").
End Examples.


(** witness of C1 *)
Lemma career_pivot_override_witness :
  JobMatcher.calculateExperienceScore Examples.pivotProfile Examples.seniorPM <= 40 /\
  70 <= JobMatcher.calculateExperienceScore Examples.pivotProfile Examples.plainPM.
Proof.
  destruct career_pivot_override as [Hgen Hex].
  assert (Hs : 5 < Profile.totalYearsExperience Examples.pivotProfile) by (vm_compute; reflexivity).
  assert (Hr : JobMatcher.getRelevantExperience Examples.pivotProfile Examples.seniorPM < 3)
    by (vm_compute; reflexivity).
  destruct (Hgen _ _ Hs Hr) as [Hle _].
  assert (Hc : JobMatcher.categoryYears Examples.pivotProfile "Product" = 2)
    by (vm_compute; reflexivity).
  destruct (Hex Examples.pivotProfile Examples.seniorPM Examples.plainPM eq_refl Hc eq_refl eq_refl)
    as (_ & _ & _ & H2).
  split; [apply Hle; vm_compute; left; reflexivity|exact H2].
Defined.

(** witness of C4 (amended) *)
Lemma calculateConfidence_monotone_bands_witness :
  JobMatcher.calculateConfidence (Examples.scoresAt 59) <=
    JobMatcher.calculateConfidence (Examples.scoresAt 60) /\
  JobMatcher.calculateConfidence (Examples.scoresAt 60) = Bands.from60 60.
Proof.
  destruct calculateConfidence_monotone_bands as [Hm [Hb _]].
  split.
  - apply Hm. vm_compute. intros H; discriminate H.
  - destruct (Hb (Examples.scoresAt 60)) as (_ & _ & H3 & _).
    apply H3. vm_compute. split; [intros H; discriminate H|reflexivity].
Defined.

(** witness of C5 *)
Lemma matchJobs_categories_witness :
  let res := JobMatcher.matchJobs RoleScoreFacts.uxProfile [RoleScoreFacts.sweJob] in
  In Examples.sweScored (JobMatcher.worthExploring res) /\
  In Examples.sweScored (JobMatcher.all res) /\
  70 <= JobMatcher.confidence Examples.sweScored < 90.
Proof.
  intros res.
  destruct (matchJobs_categories RoleScoreFacts.uxProfile [RoleScoreFacts.sweJob] Examples.sweScored)
    as (_ & [H2 _] & _ & _ & H5).
  assert (Hw : In Examples.sweScored (JobMatcher.worthExploring res))
    by (vm_compute; left; reflexivity).
  split; [exact Hw|split; [exact (H5 Hw)|exact (proj2 (H2 Hw))]].
Defined.

(** witness of C6 (amended) *)
Lemma calculateRoleScore_spec_witness :
  JobMatcher.calculateRoleScore Examples.frontendProfile Examples.frontendJob = 100 /\
  JobMatcher.calculateRoleScore RoleScoreFacts.uxProfile RoleScoreFacts.sweJob = 85.
Proof.
  destruct calculateRoleScore_spec as (_ & H2 & H3). split.
  - exact (H2 Examples.frontendProfile Examples.frontendJob
              (Primary.mk "Engineering" "Frontend Engineer" None) eq_refl eq_refl eq_refl).
  - destruct (H3 RoleScoreFacts.uxProfile RoleScoreFacts.sweJob
                 (Primary.mk "Design" "UX Designer" (Some 3)) eq_refl eq_refl eq_refl)
      as (_ & H85 & _).
    apply H85. vm_compute. reflexivity.
Defined.

(** witness of C7 *)
Lemma calculateContentScore_spec_witness :
  JobMatcher.calculateContentScore Examples.frontendProfile Examples.frontendJob = 60.
Proof.
  destruct (calculateContentScore_spec Examples.frontendProfile Examples.frontendJob)
    as (_ & _ & H3).
  rewrite H3; vm_compute; reflexivity.
Defined.

(** witness of C3 (amended) *)
Lemma totalYearsExperience_bounds_witness :
  0 <= Profile.totalYearsExperience
         (ResumeParser.extractInformation 2026 "Senior Software Engineer 2015 - Present") <= 30.
Proof.
  destruct (totalYearsExperience_bounds 2026 "Senior Software Engineer 2015 - Present")
    as (_ & Hle & Hnn).
  split; [apply Hnn|exact Hle].
  intros x y Hx Hy.
  assert (Hb : forallb (fun x => match Role.years x with Some y => 0 <=? y | None => true end)
                 (Profile.roles (ResumeParser.extractInformation 2026
                                   "Senior Software Engineer 2015 - Present")) = true)
    by (vm_compute; reflexivity).
  rewrite forallb_forall in Hb. specialize (Hb x Hx). cbv beta in Hb. rewrite Hy in Hb.
  apply Z.leb_le. exact Hb.
Defined.

(** witness of C8 (amended) *)
Lemma parse_fails_only_on_format_witness :
  ResumeParser.parse 2026 ".PDF" "" = inr (ResumeParser.extractInformation 2026 "") /\
  (exists msg, ResumeParser.parse 2026 ".doc" "" = inl msg) /\
  Profile.primaryRole (ResumeParser.extractInformation 2026 "hello") =
    Some (Primary.mk "General" "Professional" None).
Proof.
  destruct (parse_fails_only_on_format 2026) as (H1 & H2 & _ & H4). split; [|split].
  - apply H2. vm_compute. left. reflexivity.
  - apply (H1 ".doc" ""). vm_compute. intros [H|[H|[H|[]]]]; discriminate H.
  - destruct (H4 "hello") as (_ & _ & H); [vm_compute; reflexivity|exact H].
Defined.

(** witness of C10 *)
Lemma primaryRole_defaults_witness :
  Profile.primaryRole (ResumeParser.extractInformation 2026 "Consultant") =
    Some (Primary.mk "General" "Consultant" (Some 0)) /\
  Profile.primaryRole (ResumeParser.extractInformation 2026 "hello") =
    Some (Primary.mk "General" "Professional" None).
Proof.
  split.
  - destruct (primaryRole_defaults 2026 "Consultant") as [_ H].
    assert (E : Profile.roles (ResumeParser.extractInformation 2026 "Consultant") =
                [Examples.consultantRole]) by (vm_compute; reflexivity).
    apply (H Examples.consultantRole []); [exact E|].
    intros x Hx ty kws Hin. rewrite E in Hx. destruct Hx as [Hx|[]]. subst x.
    unfold ResumeParser.roleTypes in Hin. simpl in Hin.
    destruct Hin as [Hin|[Hin|[Hin|[Hin|[Hin|[]]]]]]; inversion Hin; subst;
      vm_compute; reflexivity.
  - destruct (primaryRole_defaults 2026 "hello") as [H _]. apply H. vm_compute. reflexivity.
Defined.


(** ** Further properties of the matcher, the parser and the job search *)



Module ScoreRangeFacts.
Import JobMatcher.

Lemma extractJobLevel_levels : forall t,
  In (extractJobLevel t)
     ["intern"; "junior"; "principal"; "staff"; "senior"; "lead"; "manager";
      "director"; "vp"; "mid"].
Proof.
  intros t. unfold extractJobLevel.
  repeat match goal with |- context [if ?b then _ else _] => destruct b end;
  cbn [In]; tauto.
Qed.

Lemma experienceLevels_bounds : forall lvl,
  In lvl ["intern"; "junior"; "principal"; "staff"; "senior"; "lead"; "manager";
          "director"; "vp"; "mid"] ->
  exists lmin lmax, lookup lvl experienceLevels = Some (lmin, lmax) /\
                    0 <= lmin <= lmax.
Proof.
  intros lvl H. repeat destruct H as [<-|H]; try contradiction;
  (eexists; eexists; split; [reflexivity|lia]).
Qed.

Lemma level_score_range : forall lmin lmax rel : Z, 0 <= lmin <= lmax ->
  0 <= (if (lmin <=? rel) && (rel <=? lmax + 2) then 100
        else if (lmin - 1 <=? rel) && (rel <=? lmax + 3) then 80
        else if rel <? lmin then Z.max 0 (70 - (lmin - rel) * 15)
        else Z.max 40 (90 - (rel - lmax) * 10)) <= 100.
Proof.
  intros lmin lmax rel H.
  destruct (lmin <=? rel) eqn:E1; destruct (rel <=? lmax + 2) eqn:E2; cbn [andb];
  try lia;
  destruct (lmin - 1 <=? rel) eqn:E3; destruct (rel <=? lmax + 3) eqn:E4; cbn [andb];
  try lia;
  destruct (rel <? lmin) eqn:E5;
  rewrite ?Z.leb_le, ?Z.leb_gt, ?Z.ltb_lt, ?Z.ltb_ge in *; lia.
Qed.

Lemma calculateExperienceScore_range : forall r job,
  0 <= calculateExperienceScore r job <= 100.
Proof.
  intros r job. unfold calculateExperienceScore.
  destruct (experienceLevels_bounds _ (extractJobLevel_levels (JS.toLowerCase (Job.title job))))
    as (lmin & lmax & Hl & Hb).
  cbv zeta. rewrite Hl.
  pose proof (level_score_range lmin lmax (getRelevantExperience r job) Hb) as R.
  revert R.
  generalize (if (lmin <=? getRelevantExperience r job) && (getRelevantExperience r job <=? lmax + 2) then 100
        else if (lmin - 1 <=? getRelevantExperience r job) && (getRelevantExperience r job <=? lmax + 3) then 80
        else if getRelevantExperience r job <? lmin then Z.max 0 (70 - (lmin - getRelevantExperience r job) * 15)
        else Z.max 40 (90 - (getRelevantExperience r job - lmax) * 10)).
  intros sc R.
  repeat match goal with |- context [if ?b then _ else _] => destruct b end; lia.
Qed.

Lemma ratio_score_range : forall m n : Z, 0 <= m ->
  0 <= JS.round (Qmin 100 (inject_Z m / inject_Z (Z.max n 1) * 120)) <= 100.
Proof.
  intros m n Hm. rewrite ContentFacts.round_min100. split; [|apply Z.le_min_l].
  apply Z.min_glb; [lia|]. apply RoundFacts.round_lower.
  apply Qle_trans with 0%Q; [unfold inject_Z; lra|].
  apply Qmult_le_0_compat; [|lra].
  apply Qle_shift_div_l.
  - change 0%Q with (inject_Z 0). rewrite <- Zlt_Qlt. lia.
  - rewrite Qmult_0_l. change 0%Q with (inject_Z 0). rewrite <- Zle_Qle. exact Hm.
Qed.

Lemma calculateContentScore_range : forall r job,
  0 <= calculateContentScore r job <= 100.
Proof.
  intros r job. unfold calculateContentScore. cbv zeta.
  repeat match goal with |- context [if ?b then _ else _] => destruct b end; try lia.
  apply ratio_score_range. unfold countIf. lia.
Qed.

End ScoreRangeFacts.

(** X3: [extractJobLevel] never returns "entry"; it always returns a key of [experienceLevels], whose range [min, max] has [0 <= min <= max], so the default range [{min: 0, max: 100}] of [calculateExperienceScore] is never used. *)
Theorem extractJobLevel_known : forall t,
  let lvl := JobMatcher.extractJobLevel t in
  lvl <> "entry" /\
  exists lmin lmax, lookup lvl JobMatcher.experienceLevels = Some (lmin, lmax) /\ 0 <= lmin <= lmax.
Proof.
  intros t lvl. pose proof (ScoreRangeFacts.extractJobLevel_levels t) as H.
  split; [|exact (ScoreRangeFacts.experienceLevels_bounds _ H)].
  intros E. fold lvl in H. rewrite E in H. cbn [In] in H.
  repeat destruct H as [H|H]; try discriminate H; exact H.
Qed.

Module MatchRangeFacts.
Import JobMatcher.

Lemma weighted_total_range : forall a b c : Z,
  20 <= a <= 100 -> 0 <= b <= 100 -> 0 <= c <= 100 ->
  let q := (inject_Z (JS.round ((inject_Z a * (40 # 100) + inject_Z b * (35 # 100)
                                  + inject_Z c * (25 # 100)) * 100)) / 100)%Q in
  (8 <= q <= 100)%Q.
Proof.
  intros a b c Ha Hb Hc q.
  assert (Qa : (20 <= inject_Z a <= 100)%Q)
    by (split; [change 20%Q with (inject_Z 20)|change 100%Q with (inject_Z 100)];
        rewrite <- Zle_Qle; lia).
  assert (Qb : (0 <= inject_Z b <= 100)%Q)
    by (split; [change 0%Q with (inject_Z 0)|change 100%Q with (inject_Z 100)];
        rewrite <- Zle_Qle; lia).
  assert (Qc : (0 <= inject_Z c <= 100)%Q)
    by (split; [change 0%Q with (inject_Z 0)|change 100%Q with (inject_Z 100)];
        rewrite <- Zle_Qle; lia).
  set (x := ((inject_Z a * (40 # 100) + inject_Z b * (35 # 100) + inject_Z c * (25 # 100)) * 100)%Q).
  assert (L : 800 <= JS.round x).
  { apply RoundFacts.round_lower. change (inject_Z 800) with 800%Q. unfold x. clear q x. lra. }
  assert (U : JS.round x <= 10000).
  { apply RoundFacts.round_upper. change (inject_Z 10000) with 10000%Q. unfold x. clear q L x. lra. }
  subst q. fold x. generalize (JS.round x) L U. intros k Lk Uk.
  assert (Qk : (800 <= inject_Z k <= 10000)%Q)
    by (split; [change 800%Q with (inject_Z 800)|change 10000%Q with (inject_Z 10000)];
        rewrite <- Zle_Qle; lia).
  unfold Qdiv. change (/ 100)%Q with (1 # 100)%Q. lra.
Qed.

Lemma calculateMatchScore_ranges : forall r job,
  let s := calculateMatchScore r job in
  20 <= role s <= 100 /\ 0 <= experience s <= 100 /\ 0 <= content s <= 100 /\
  (8 <= total s <= 100)%Q.
Proof.
  intros r job s.
  assert (Ha : 20 <= calculateRoleScore r job <= 100)
    by (destruct (RoleScoreFacts.calculateRoleScore_ladder r job) as [<-|[<-|[<-|[<-|[<-|[]]]]]]; lia).
  pose proof (ScoreRangeFacts.calculateExperienceScore_range r job) as Hb.
  pose proof (ScoreRangeFacts.calculateContentScore_range r job) as Hc.
  split; [exact Ha|split; [exact Hb|split; [exact Hc|]]].
  exact (weighted_total_range _ _ _ Ha Hb Hc).
Qed.

Lemma calculateConfidence_range : forall s : Scores, (8 <= total s)%Q ->
  10 <= calculateConfidence s <= 95.
Proof.
  intros s H.
  destruct (ConfidenceFacts.confidence_cases s) as [(B & E)|[(B & E)|[(B & E)|(B & E)]]];
    rewrite E.
  - split; [|pose proof (ConfidenceFacts.below40_upper _ B); lia].
    unfold Bands.below40. apply RoundFacts.round_lower. unfold inject_Z. lra.
  - pose proof (ConfidenceFacts.from40_bounds _ B). lia.
  - pose proof (ConfidenceFacts.from60_bounds _ B). lia.
  - pose proof (ConfidenceFacts.from85_lower _ B). split; [lia|apply Z.le_min_l].
Qed.

End MatchRangeFacts.

(** X2: every job [matchJobs] returns in [all] has a match score in [8, 100] and a confidence in [10, 95]; so it is in [recommended] exactly when its confidence is at least 90. *)
Theorem matchJobs_ranges : forall (r : Profile.t) (jobs : list Job.t) (x : JobMatcher.ScoredJob),
  In x (JobMatcher.all (JobMatcher.matchJobs r jobs)) ->
  (8 <= JobMatcher.matchScore x <= 100)%Q /\ 10 <= JobMatcher.confidence x <= 95 /\
  (In x (JobMatcher.recommended (JobMatcher.matchJobs r jobs)) <-> 90 <= JobMatcher.confidence x).
Proof.
  intros r jobs x Hin.
  assert (Hs : exists j, x = JobMatcher.scoreJob r j).
  { unfold JobMatcher.matchJobs in Hin; cbn [JobMatcher.all] in Hin.
    apply (Permutation_in _ (MatcherFacts.sortDesc_perm _)) in Hin.
    apply in_map_iff in Hin as (j & <- & _). eauto. }
  destruct Hs as (j & ->).
  destruct (MatchRangeFacts.calculateMatchScore_ranges r j) as (_ & _ & _ & T).
  pose proof (MatchRangeFacts.calculateConfidence_range _ (proj1 T)) as C.
  unfold JobMatcher.scoreJob in *. cbn [JobMatcher.matchScore JobMatcher.confidence].
  split; [exact T|split; [exact C|]].
  unfold JobMatcher.matchJobs. cbn [JobMatcher.recommended JobMatcher.all].
  rewrite filter_In, andb_true_iff, !Z.leb_le. cbn [JobMatcher.confidence]. 
  split; [tauto|intros H; split; [|lia]].
  unfold JobMatcher.matchJobs in Hin. exact Hin.
Qed.

(** X1: the role score of [calculateMatchScore] lies in [20, 100], the experience and content scores in [0, 100], and the weighted total in [8, 100]. *)
Theorem calculateMatchScore_bounds : forall r job,
  let s := JobMatcher.calculateMatchScore r job in
  20 <= JobMatcher.role s <= 100 /\ 0 <= JobMatcher.experience s <= 100 /\
  0 <= JobMatcher.content s <= 100 /\ (8 <= JobMatcher.total s <= 100)%Q.
Proof. exact MatchRangeFacts.calculateMatchScore_ranges. Qed.

(** witness of X2 *)
Lemma matchJobs_ranges_witness :
  In (JobMatcher.scoreJob RoleScoreFacts.uxProfile RoleScoreFacts.sweJob)
     (JobMatcher.all (JobMatcher.matchJobs RoleScoreFacts.uxProfile [RoleScoreFacts.sweJob])) /\
  (8 <= JobMatcher.matchScore (JobMatcher.scoreJob RoleScoreFacts.uxProfile RoleScoreFacts.sweJob) <= 100)%Q.
Proof.
  assert (H : In (JobMatcher.scoreJob RoleScoreFacts.uxProfile RoleScoreFacts.sweJob)
     (JobMatcher.all (JobMatcher.matchJobs RoleScoreFacts.uxProfile [RoleScoreFacts.sweJob])))
    by (vm_compute; left; reflexivity).
  split; [exact H|exact (proj1 (matchJobs_ranges _ _ _ H))].
Defined.

Module SymmetryFacts.
Import JobMatcher.

Lemma existsb_ext {A} (f g : A -> bool) :
  (forall x, f x = g x) -> forall l, existsb f l = existsb g l.
Proof. intros H l. induction l as [|x l IH]; cbn; [reflexivity|now rewrite H, IH]. Qed.

Lemma prefix_refl : forall s, prefix s s = true.
Proof.
  induction s as [|c s IH]; cbn; [reflexivity|].
  destruct (ascii_dec c c); [exact IH|congruence].
Qed.

Lemma includes_refl : forall s, JS.includes s s = true.
Proof. intros [|c s]; cbn [JS.includes]; rewrite prefix_refl; reflexivity. Qed.

End SymmetryFacts.

(** X4: [titlesMatch] is symmetric. *)
Theorem titlesMatch_sym : forall t1 t2,
  JobMatcher.titlesMatch t1 t2 = JobMatcher.titlesMatch t2 t1.
Proof.
  intros t1 t2. unfold JobMatcher.titlesMatch.
  rewrite (orb_comm (negb (JS.truthy t1))), (orb_comm (JS.includes t1 t2)).
  destruct (negb (JS.truthy t2) || negb (JS.truthy t1)); [reflexivity|].
  destruct (JS.includes t2 t1 || JS.includes t1 t2); [reflexivity|].
  apply SymmetryFacts.existsb_ext. intros [c syn]. apply andb_comm.
Qed.

(** X5: [sameRoleFamily] is symmetric. *)
Theorem sameRoleFamily_sym : forall t1 t2,
  JobMatcher.sameRoleFamily t1 t2 = JobMatcher.sameRoleFamily t2 t1.
Proof.
  intros t1 t2. unfold JobMatcher.sameRoleFamily.
  apply SymmetryFacts.existsb_ext. intros [f kws]. apply andb_comm.
Qed.

(** X6: a job whose lower-cased title equals the lower-cased, non-empty title of the candidate's primary role gets role score 100. *)
Theorem roleScore_same_title : forall r job p,
  Profile.primaryRole r = Some p ->
  JS.toLowerCase (Job.title job) = JS.toLowerCase (Primary.title p) ->
  JS.truthy (Primary.title p) = true ->
  JobMatcher.calculateRoleScore r job = 100.
Proof.
  intros r job p Hp Ht Hne. unfold JobMatcher.calculateRoleScore, JobMatcher.primaryTitleLower.
  rewrite Hp, Ht. unfold JobMatcher.titlesMatch.
  assert (Hl : JS.truthy (JS.toLowerCase (Primary.title p)) = true).
  { revert Hne. destruct (Primary.title p); cbn; auto. }
  rewrite Hl, SymmetryFacts.includes_refl. reflexivity.
Qed.

(** witness of X6 *)
Lemma roleScore_same_title_witness :
  JobMatcher.calculateRoleScore RoleScoreFacts.uxProfile
    (Job.mk "ux designer" "Acme" "Remote" "" "") = 100.
Proof.
  apply (roleScore_same_title _ _ (Primary.mk "Design" "UX Designer" (Some 3)));
  vm_compute; reflexivity.
Defined.

Module DedupFacts.

Lemma dedupAux_spec : forall l seen x,
  In x (JS.dedupAux seen l) <-> In x l /\ ~ In x seen.
Proof.
  induction l as [|y l IH]; intros seen x; cbn [JS.dedupAux]; [tauto|].
  destruct (existsb (String.eqb y) seen) eqn:E.
  - rewrite IH. apply existsb_exists in E as (z & Hz & Hyz). apply String.eqb_eq in Hyz. subst z.
    split; [intros [H1 H2]; split; [right; exact H1|exact H2]|].
    intros [[<-|H1] H2]; [contradiction|tauto].
  - cbn [In]. rewrite IH. cbn [In].
    assert (Hn : ~ In y seen).
    { intros Hy. assert (existsb (String.eqb y) seen = true)
        by (apply existsb_exists; exists y; split; [exact Hy|apply String.eqb_refl]). congruence. }
    split.
    + intros [<-|[H1 H2]]; [split; [left; reflexivity|exact Hn]|split; [right; exact H1|tauto]].
    + intros [[<-|H1] H2]; [left; reflexivity|].
      destruct (String.eqb_spec y x) as [->|Hne]; [left; reflexivity|right; split; [exact H1|]].
      intros [H|H]; [congruence|contradiction].
Qed.

Lemma dedupAux_nodup : forall l seen, NoDup (JS.dedupAux seen l).
Proof.
  induction l as [|y l IH]; intros seen; cbn [JS.dedupAux]; [constructor|].
  destruct (existsb (String.eqb y) seen); [apply IH|].
  constructor; [|apply IH]. rewrite dedupAux_spec. intros [_ H]. apply H. left. reflexivity.
Qed.

Lemma dedup_spec : forall l x, In x (JS.dedup l) <-> In x l.
Proof. intros l x. unfold JS.dedup. rewrite dedupAux_spec. cbn. tauto. Qed.

Lemma dedup_nodup : forall l, NoDup (JS.dedup l).
Proof. intros l. apply dedupAux_nodup. Qed.

End DedupFacts.


Module CaseFacts.

Lemma lowerA_idem : forall c, JS.lowerA (JS.lowerA c) = JS.lowerA c.
Proof. intros [[] [] [] [] [] [] [] []]; vm_compute; reflexivity. Qed.

Lemma toLowerCase_idem : forall s, JS.toLowerCase (JS.toLowerCase s) = JS.toLowerCase s.
Proof. induction s as [|c s IH]; cbn; [reflexivity|now rewrite lowerA_idem, IH]. Qed.

End CaseFacts.

(** X10: [parse] treats the file extension case-insensitively: its result is the same for the extension and for its lower-cased form. *)
Theorem parse_ext_case_insensitive : forall now ext text,
  ResumeParser.parse now ext text = ResumeParser.parse now (JS.toLowerCase ext) text.
Proof.
  intros now ext text. unfold ResumeParser.parse. rewrite CaseFacts.toLowerCase_idem. reflexivity.
Qed.

Module ExplanationFacts.
Import JobMatcher.

Definition strongLine (t : string) : string := "Strong role alignment with your " ++ t.

Definition roleLines (s : Scores) (t : string) : list string :=
  if 85 <=? role s then [strongLine t]
  else if 60 <=? role s then ["Related to your career experience"] else [].

Definition experienceLines (s : Scores) : list string :=
  if 80 <=? experience s then ["Experience level matches well"]
  else if 60 <=? experience s then ["Slight stretch for experience level"]
  else if experience s <? 50 then ["May require more experience in this specific area"]
  else [].

Definition contentLines (s : Scores) : list string :=
  if 70 <=? content s then ["Many of your skills match the requirements"] else [].

Definition titleOrBackground (r : Profile.t) : string :=
  match Profile.primaryRole r with
  | Some p => if JS.truthy (Primary.title p) then Primary.title p else "background"
  | None => "background"
  end.

Lemma explanation_split : forall s r job,
  MatcherText.generateMatchExplanation s r job =
  (roleLines s (titleOrBackground r) ++ experienceLines s ++ contentLines s)%list.
Proof.
  intros s r job. unfold MatcherText.generateMatchExplanation, roleLines, experienceLines,
    contentLines, titleOrBackground, strongLine. cbv zeta.
  destruct (85 <=? role s), (60 <=? role s), (80 <=? experience s), (60 <=? experience s),
    (experience s <? 50), (70 <=? content s); reflexivity.
Qed.

Definition otherLines : list string :=
  ["Experience level matches well"; "Slight stretch for experience level";
   "May require more experience in this specific area";
   "Many of your skills match the requirements"].

Lemma other_lines : forall s x, In x (experienceLines s ++ contentLines s)%list -> In x otherLines.
Proof.
  intros s x H. apply in_app_or in H. unfold experienceLines, contentLines, otherLines in *.
  destruct H as [H|H];
  repeat match goal with H : context [if ?b then _ else _] |- _ => destruct b end;
  cbn in H |- *; tauto.
Qed.

Lemma strong_not_other : forall t, ~ In (strongLine t) otherLines.
Proof. intros t. cbn. intros H. repeat destruct H as [H|H]; try discriminate H; exact H. Qed.

Lemma related_not_other : ~ In "Related to your career experience" otherLines.
Proof. cbn. intros H. repeat destruct H as [H|H]; try discriminate H; exact H. Qed.

Lemma related_not_strong : forall t, strongLine t <> "Related to your career experience".
Proof. intros t. discriminate. Qed.

Lemma other_lines_length : forall s, (List.length (experienceLines s ++ contentLines s) <= 2)%nat.
Proof.
  intros s. rewrite length_app. unfold experienceLines, contentLines.
  repeat match goal with |- context [if ?b then _ else _] => destruct b end; cbn; lia.
Qed.

Lemma explanation_lines : forall s r job,
  In (role s) [100; 85; 70; 50; 20] ->
  let e := MatcherText.generateMatchExplanation s r job in
  (List.length e <= 3)%nat /\
  ((exists t, In (strongLine t) e) <-> 85 <= role s) /\
  (In "Related to your career experience" e <-> role s = 70).
Proof.
  intros s r job Hr e. subst e. rewrite explanation_split.
  pose proof (other_lines s) as HO. pose proof (other_lines_length s) as HL.
  generalize dependent (experienceLines s ++ contentLines s)%list. intros L HO HL.
  unfold roleLines. generalize (titleOrBackground r) as t0. intros t0.
  assert (NS : forall t, ~ In (strongLine t) L) by (intros t H; exact (strong_not_other t (HO _ H))).
  assert (NR : ~ In "Related to your career experience" L) by (intros H; exact (related_not_other (HO _ H))).
  destruct Hr as [E|[E|[E|[E|[E|[]]]]]]; rewrite <- E; cbn [Z.leb Z.compare Pos.compare Pos.compare_cont app];
  (split; [cbn [List.length]; lia|split; split]); cbn [In];
  first [ intros; lia
        | intros _; exists t0; left; reflexivity
        | intros (t & [H|H]); [destruct (related_not_strong t (eq_sym H))|destruct (NS t H)]
        | intros (t & H); destruct (NS t H)
        | intros [H|H]; [destruct (related_not_strong t0 H)|destruct (NR H)]
        | intros H; destruct (NR H)
        | intros _; left; reflexivity
        ].
Qed.

End ExplanationFacts.

(** X7: for the scores of [calculateMatchScore], [generateMatchExplanation] gives at most three lines; it contains the "Strong role alignment" line exactly when the role score is at least 85, and the "Related to your career experience" line exactly when the role score is 70. *)
Theorem generateMatchExplanation_lines : forall r job,
  let s := JobMatcher.calculateMatchScore r job in
  let e := MatcherText.generateMatchExplanation s r job in
  (List.length e <= 3)%nat /\
  ((exists t, In ("Strong role alignment with your " ++ t) e) <->
     85 <= JobMatcher.calculateRoleScore r job) /\
  (In "Related to your career experience" e <-> JobMatcher.calculateRoleScore r job = 70).
Proof.
  intros r job s e.
  exact (ExplanationFacts.explanation_lines s r job
           (RoleScoreFacts.calculateRoleScore_ladder r job)).
Qed.

Module RegexSound.
Import Regex.

Section Sound.
Variable ic : bool.
Variable s : list ascii.

(** [M r i j d]: [r] matches [s] from [i] to [j], binding the captures [d]
    (newest first) *)
Inductive M : re -> nat -> nat -> caps -> Prop :=
| M_Empty : forall i, M Empty i i []
| M_Chr : forall a i b, nth_error s i = Some b -> chrEq ic a b = true -> M (Chr a) i (S i) []
| M_Cls : forall p i b, nth_error s i = Some b -> clsMatch ic p b = true -> M (Cls p) i (S i) []
| M_Any : forall i b, nth_error s i = Some b -> JS.isLineTerminator b = false -> M AnyNL i (S i) []
| M_Seq : forall r1 r2 i j k d1 d2, M r1 i j d1 -> M r2 j k d2 -> M (Seq r1 r2) i k (d2 ++ d1)%list
| M_AltL : forall r1 r2 i j d, M r1 i j d -> M (Alt r1 r2) i j d
| M_AltR : forall r1 r2 i j d, M r2 i j d -> M (Alt r1 r2) i j d
| M_StarNil : forall g r i, M (Star g r) i i []
| M_StarCons : forall g r i j k d1 d2,
    M r i j d1 -> (i < j)%nat -> M (Star g r) j k d2 -> M (Star g r) i k (d2 ++ d1)%list
| M_Group : forall n r i j d, M r i j d -> M (Group n r) i j ((n, (i, j)) :: d)
| M_WordB : forall i, isBoundary s i = true -> M WordB i i [].

Lemma starLoop_sound : forall fuel r1,
  (forall i c k x, mt ic s fuel r1 i c k = Some x ->
     exists j d, M r1 i j d /\ k j (d ++ c)%list = Some x) ->
  forall g k f i c x, starLoop (mt ic s fuel r1) g k f i c = Some x ->
  exists j d, M (Star g r1) i j d /\ k j (d ++ c)%list = Some x.
Proof.
  intros fuel r1 IH g k f. induction f as [|f IHf]; intros i c x H; cbn [starLoop] in H.
  - exists i, []. split; [constructor|exact H].
  - assert (Hstep : mt ic s fuel r1 i c
             (fun j c' => if Nat.ltb i j then starLoop (mt ic s fuel r1) g k f j c' else None)
             = Some x -> exists j d, M (Star g r1) i j d /\ k j (d ++ c)%list = Some x).
    { intros Hm. apply IH in Hm as (j & d1 & M1 & Hk).
      destruct (Nat.ltb_spec i j) as [Hij|]; [|discriminate].
      apply IHf in Hk as (j2 & d2 & M2 & Hk2).
      exists j2, (d2 ++ d1)%list. split; [econstructor; eauto|now rewrite <- app_assoc]. }
    destruct g.
    + destruct (mt ic s fuel r1 i c _) eqn:E.
      * inversion H; subst. now apply Hstep.
      * exists i, []. split; [constructor|exact H].
    + destruct (k i c) eqn:E.
      * inversion H; subst. exists i, []. split; [constructor|exact E].
      * now apply Hstep.
Qed.

Lemma mt_sound : forall fuel r i c k x, mt ic s fuel r i c k = Some x ->
  exists j d, M r i j d /\ k j (d ++ c)%list = Some x.
Proof.
  intros fuel r. induction r as [| a | p | | r1 IH1 r2 IH2 | r1 IH1 r2 IH2 | g r1 IH1 | n r1 IH1 |];
    intros i c k x H; cbn [mt] in H.
  - exists i, []. split; [constructor|exact H].
  - destruct (nth_error s i) as [b|] eqn:E; [|discriminate].
    destruct (chrEq ic a b) eqn:Eb; [|discriminate].
    exists (S i), []. split; [econstructor; eauto|exact H].
  - destruct (nth_error s i) as [b|] eqn:E; [|discriminate].
    destruct (clsMatch ic p b) eqn:Eb; [|discriminate].
    exists (S i), []. split; [econstructor; eauto|exact H].
  - destruct (nth_error s i) as [b|] eqn:E; [|discriminate].
    destruct (JS.isLineTerminator b) eqn:Eb; [discriminate|].
    exists (S i), []. split; [econstructor; eauto|exact H].
  - apply IH1 in H as (j1 & d1 & M1 & H1).
    apply IH2 in H1 as (j2 & d2 & M2 & H2).
    exists j2, (d2 ++ d1)%list. split; [econstructor; eauto|now rewrite <- app_assoc].
  - destruct (mt ic s fuel r1 i c k) eqn:E.
    + inversion H; subst. apply IH1 in E as (j & d & M1 & Hk).
      exists j, d. split; [now apply M_AltL|exact Hk].
    + apply IH2 in H as (j & d & M2 & Hk).
      exists j, d. split; [now apply M_AltR|exact Hk].
  - exact (starLoop_sound fuel r1 IH1 g k fuel i c x H).
  - apply IH1 in H as (j & d & M1 & Hk).
    exists j, ((n, (i, j)) :: d). split; [now constructor|exact Hk].
  - destruct (isBoundary s i) eqn:E; [|discriminate].
    exists i, []. split; [now constructor|exact H].
Qed.

(** every character a match of [r] consumes satisfies [P] *)
Fixpoint classOnly (P : ascii -> Prop) (r : re) : Prop :=
  match r with
  | Empty | WordB => True
  | Chr a => forall b, chrEq ic a b = true -> P b
  | Cls p => forall b, clsMatch ic p b = true -> P b
  | AnyNL => forall b, JS.isLineTerminator b = false -> P b
  | Seq r1 r2 | Alt r1 r2 => classOnly P r1 /\ classOnly P r2
  | Star _ r1 | Group _ r1 => classOnly P r1
  end.

Lemma M_span : forall P r i j d, classOnly P r -> M r i j d ->
  (i <= j)%nat /\ forall m, (i <= m < j)%nat -> exists b, nth_error s m = Some b /\ P b.
Proof.
  intros P r i j d HP HM. induction HM; cbn [classOnly] in HP.
  - split; [lia|intros; lia].
  - split; [lia|intros m Hm; assert (m = i) by lia; subst; eauto].
  - split; [lia|intros m Hm; assert (m = i) by lia; subst; eauto].
  - split; [lia|intros m Hm; assert (m = i) by lia; subst; eauto].
  - destruct HP as [P1 P2]. destruct (IHHM1 P1) as [L1 S1]. destruct (IHHM2 P2) as [L2 S2].
    split; [lia|intros m Hm]. destruct (Nat.lt_ge_cases m j); [apply S1|apply S2]; lia.
  - destruct HP as [P1 _]. exact (IHHM P1).
  - destruct HP as [_ P2]. exact (IHHM P2).
  - split; [lia|intros; lia].
  - destruct (IHHM1 HP) as [L1 S1]. destruct (IHHM2 HP) as [L2 S2].
    split; [lia|intros m Hm]. destruct (Nat.lt_ge_cases m j); [apply S1|apply S2]; lia.
  - exact (IHHM HP).
  - split; [lia|intros; lia].
Qed.

(** the bodies of the groups numbered [n] *)
Fixpoint groups (n : nat) (r : re) : list re :=
  match r with
  | Seq r1 r2 | Alt r1 r2 => groups n r1 ++ groups n r2
  | Star _ r1 => groups n r1
  | Group m r1 => (if Nat.eqb m n then [r1] else []) ++ groups n r1
  | _ => []
  end.

Lemma M_caps : forall r i j d, M r i j d -> forall n a b, In (n, (a, b)) d ->
  exists r1, In r1 (groups n r) /\ exists d1, M r1 a b d1.
Proof.
  intros r i j d HM. induction HM; intros n0 a0 b0 Hin; cbn [groups]; try contradiction.
  - apply in_app_or in Hin as [H|H].
    + destruct (IHHM2 _ _ _ H) as (r0 & H0 & H1). exists r0. split; [apply in_or_app; right; exact H0|exact H1].
    + destruct (IHHM1 _ _ _ H) as (r0 & H0 & H1). exists r0. split; [apply in_or_app; left; exact H0|exact H1].
  - destruct (IHHM _ _ _ Hin) as (r0 & H0 & H1). exists r0. split; [apply in_or_app; left; exact H0|exact H1].
  - destruct (IHHM _ _ _ Hin) as (r0 & H0 & H1). exists r0. split; [apply in_or_app; right; exact H0|exact H1].
  - apply in_app_or in Hin as [Hx|Hx]; [exact (IHHM2 _ _ _ Hx)|exact (IHHM1 _ _ _ Hx)].
  - destruct Hin as [Hh|Hh].
    + inversion Hh; subst. exists r. split; [rewrite Nat.eqb_refl; left; reflexivity|eauto].
    + destruct (IHHM _ _ _ Hh) as (r0 & H0 & H1). exists r0. split; [apply in_or_app; right; exact H0|exact H1].
Qed.

(** the groups numbered [n] that every match of [r] binds *)
Fixpoint must (n : nat) (r : re) : bool :=
  match r with
  | Seq r1 r2 => must n r1 || must n r2
  | Alt r1 r2 => must n r1 && must n r2
  | Group m r1 => Nat.eqb m n || must n r1
  | _ => false
  end.

Lemma M_must : forall r i j d n, M r i j d -> must n r = true -> exists v, In (n, v) d.
Proof.
  intros r i j d n HM. induction HM; cbn [must]; intros Hm; try discriminate.
  - apply orb_true_iff in Hm as [H|H].
    + destruct (IHHM1 H) as (v & Hv). exists v. apply in_or_app. right. exact Hv.
    + destruct (IHHM2 H) as (v & Hv). exists v. apply in_or_app. left. exact Hv.
  - apply andb_true_iff in Hm as [H _]. exact (IHHM H).
  - apply andb_true_iff in Hm as [_ H]. exact (IHHM H).
  - apply orb_true_iff in Hm as [H|H].
    + apply Nat.eqb_eq in H. subst. exists (i, j). left. reflexivity.
    + destruct (IHHM H) as (v & Hv). exists v. right. exact Hv.
Qed.

End Sound.

End RegexSound.

Module RequiredFacts.
Import Regex RegexSound RequiredExperience.

Lemma digit_class : forall b, clsMatch true isDigit b = true -> isDigit b = true.
Proof.
  intros b; destruct b as [[] [] [] [] [] [] [] []]; vm_compute; intros H;
    first [reflexivity|discriminate H].
Qed.

Lemma digits_span : forall s a b d, M true s digits a b d ->
  forall m, (a <= m < b)%nat -> exists ch, nth_error s m = Some ch /\ isDigit ch = true.
Proof.
  intros s a b d HM. apply (M_span true s (fun ch => isDigit ch = true)) in HM as [_ H]; [exact H|].
  cbn. split; exact digit_class.
Qed.

Lemma in_firstn {A} : forall (l : list A) n x, In x (firstn n l) ->
  exists m, (m < n)%nat /\ nth_error l m = Some x.
Proof.
  induction l as [|y l IH]; intros [|n] x H; cbn in H; try contradiction.
  destruct H as [<-|H].
  - exists 0%nat. split; [lia|reflexivity].
  - destruct (IH n x H) as (m & Hm & Hn). exists (S m). split; [lia|exact Hn].
Qed.

Lemma nth_error_skipn' {A} : forall (l : list A) a m, nth_error (skipn a l) m = nth_error l (a + m).
Proof. induction l as [|y l IH]; intros [|a] m; cbn; auto. destruct m; reflexivity. Qed.

Lemma parseDigits_fold_nonneg : forall l acc, 0 <= acc ->
  (forall x, In x l -> isDigit x = true) ->
  0 <= fold_left (fun acc c => acc * 10 + (Z.of_nat (nat_of_ascii c) - 48)) l acc.
Proof.
  induction l as [|c l IH]; intros acc Ha Hl; cbn [fold_left]; [exact Ha|].
  apply IH; [|intros x Hx; apply Hl; right; exact Hx].
  assert (Hc := Hl c (or_introl eq_refl)). unfold isDigit, inRange, code in Hc.
  apply andb_true_iff in Hc as [Hc _]. apply Nat.leb_le in Hc. lia.
Qed.

Lemma slice_digits_nonneg : forall s a b,
  (forall m, (a <= m < b)%nat -> exists ch, nth_error s m = Some ch /\ isDigit ch = true) ->
  0 <= JS.parseDigits (slice s a b).
Proof.
  intros s a b H. unfold JS.parseDigits, slice. rewrite list_ascii_of_string_of_list_ascii.
  apply parseDigits_fold_nonneg; [lia|]. intros x Hx.
  apply in_firstn in Hx as (m & Hm & Hn). rewrite nth_error_skipn' in Hn.
  destruct (H (a + m)%nat ltac:(lia)) as (ch & Hch & Hd). congruence.
Qed.

Lemma patterns_shape : forall p, In p requiredPatterns -> must 1 p = true /\ groups 1 p = [digits].
Proof. intros p H. repeat destruct H as [<-|H]; try contradiction; split; reflexivity. Qed.

Lemma search_exec : forall ic s r from p j c,
  search ic s r from = Some (p, j, c) -> execAt ic s r p = Some (j, c).
Proof.
  intros ic s r from p j c H. unfold search in H.
  destruct (Nat.leb from (List.length s)); [|discriminate].
  eapply TitleFacts.searchAux_some; exact H.
Qed.

Lemma pattern_group1 : forall p description m, In p requiredPatterns ->
  matchFirst true p description = Some m ->
  exists g, group (list_ascii_of_string description) m 1 = Some g /\ 0 <= JS.parseDigits g.
Proof.
  intros p description [[q j] c] Hp Hm. unfold matchFirst in Hm.
  apply search_exec in Hm. unfold execAt in Hm.
  apply mt_sound in Hm as (j' & d & HM & Hk). inversion Hk; subst j' c. rewrite app_nil_r.
  destruct (patterns_shape p Hp) as [Hmust Hg].
  destruct (M_must _ _ _ _ _ _ 1 HM Hmust) as (v & Hv).
  destruct (TitleFacts.capGet_in d 1 v Hv) as ([a b] & Hc & Hin).
  destruct (M_caps _ _ _ _ _ _ HM 1 a b Hin) as (r1 & Hr1 & d1 & M1).
  rewrite Hg in Hr1. destruct Hr1 as [<-|[]].
  unfold group. rewrite Hc. eexists. split; [reflexivity|].
  apply slice_digits_nonneg. exact (digits_span _ _ _ _ M1).
Qed.

Lemma matchPatterns_some : forall description ps v, matchPatterns description ps = Some v ->
  exists p m, In p ps /\ matchFirst true p description = Some m /\
    v = match group (list_ascii_of_string description) m 1 with
        | Some g => Some (JS.parseDigits g) | None => None end.
Proof.
  intros description ps; induction ps as [|p ps IH]; intros v H; cbn [matchPatterns] in H; [discriminate|].
  destruct (matchFirst true p description) as [m|] eqn:E.
  - inversion H; subst. exists p, m. split; [left; reflexivity|split; [exact E|reflexivity]].
  - destruct (IH v H) as (p' & m & H1 & H2 & H3). exists p', m. split; [right; exact H1|auto].
Qed.

End RequiredFacts.

(** X8: [extractRequiredExperience] always returns a number (never NaN), and it is non-negative; when no pattern matches the lower-cased description, it is one of 2, 5, 7, 8 and 10. *)
Theorem extractRequiredExperience_range : forall job,
  exists n, RequiredExperience.extractRequiredExperience job = Some n /\ 0 <= n /\
  (RequiredExperience.matchPatterns (JS.toLowerCase (Job.description job)) RequiredExperience.requiredPatterns = None ->
   In n [2; 5; 7; 8; 10]).
Proof.
  intros job. unfold RequiredExperience.extractRequiredExperience. cbv zeta.
  destruct (RequiredExperience.matchPatterns _ _) as [v|] eqn:E.
  - destruct (RequiredFacts.matchPatterns_some _ _ _ E) as (p & m & Hp & Hm & ->).
    destruct (RequiredFacts.pattern_group1 _ _ _ Hp Hm) as (g & Hg & Hn). rewrite Hg.
    exists (JS.parseDigits g). split; [reflexivity|split; [exact Hn|discriminate]].
  - pose proof (ScoreRangeFacts.extractJobLevel_levels (Job.title job)) as HL.
    generalize dependent (JobMatcher.extractJobLevel (Job.title job)). intros lvl HL.
    repeat destruct HL as [<-|HL]; try contradiction;
    (eexists; split; [reflexivity|split; [cbn; lia|intros _; cbn; tauto]]).
Qed.

Module KeywordFacts.
Import Regex RegexSound.

Definition keywordChar (c : ascii) : bool := (isUpper c || isLower c || JS.isSpace c)%bool.

Ltac kw_class :=
  repeat split; let b := fresh "b" in let Hb := fresh "Hb" in
  intros b Hb; cbn [clsMatch] in Hb; unfold keywordChar;
  destruct (isUpper b), (isLower b), (JS.isSpace b); cbn in Hb |- *; congruence.

Lemma capitalized_only : classOnly false (fun c => keywordChar c = true) ResumeParser.capitalizedPattern.
Proof.
  cbn [ResumeParser.capitalizedPattern seqs classOnly plus star]. kw_class.
Qed.

Lemma capitalized_head : forall s p j d, M false s ResumeParser.capitalizedPattern p j d ->
  exists b, nth_error s p = Some b /\ isUpper b = true /\ (p < j)%nat.
Proof.
  intros s p j d HM. unfold ResumeParser.capitalizedPattern in HM. cbn [seqs] in HM.
  inversion HM as [| | | |r1 r2 i0 j0 k0 d1 d2 MW MR| | | | | |]; subst.
  inversion MW; subst.
  inversion MR as [| | | |r1' r2' i1 j1 k1 d1' d2' MWord MRest| | | | | |]; subst.
  inversion MWord as [| | | |r1'' r2'' i2 j2 k2 d1'' d2'' MU MPl| | | | | |]; subst.
  inversion MU; subst.
  apply (M_span false s (fun c => keywordChar c = true)) in MPl as [Hl _]; [|cbn [classOnly plus star seqs]; kw_class].
  apply (M_span false s (fun c => keywordChar c = true)) in MRest as [Hl2 _]; [|cbn [classOnly plus star seqs]; kw_class].
  eexists. split; [eassumption|split; [assumption|lia]].
Qed.

Lemma slice_chars : forall (P : ascii -> Prop) s a b,
  (forall m, (a <= m < b)%nat -> exists ch, nth_error s m = Some ch /\ P ch) ->
  forall x, In x (list_ascii_of_string (slice s a b)) -> P x.
Proof.
  intros P s a b H x Hx. unfold slice in Hx. rewrite list_ascii_of_string_of_list_ascii in Hx.
  apply RequiredFacts.in_firstn in Hx as (m & Hm & Hn). rewrite RequiredFacts.nth_error_skipn' in Hn.
  destruct (H (a + m)%nat ltac:(lia)) as (ch & Hch & Hp). congruence.
Qed.

Lemma slice_head : forall s a b ch, (a < b)%nat -> nth_error s a = Some ch ->
  exists rest, slice s a b = String ch rest.
Proof.
  intros s a b ch Hab Hn. unfold slice.
  destruct (TitleFacts.skipn_nth s a ch Hn) as [t Ht]. rewrite Ht.
  replace (b - a)%nat with (S (b - a - 1)) by lia. cbn [firstn string_of_list_ascii]. eauto.
Qed.

Lemma matchAll_capitalized : forall text w,
  In w (matchAll false ResumeParser.capitalizedPattern text) ->
  (exists c rest, w = String c rest /\ isUpper c = true) /\
  (forall c, In c (list_ascii_of_string w) -> keywordChar c = true).
Proof.
  intros text w Hw. unfold matchAll in Hw. apply in_map_iff in Hw as ([[p j] c] & <- & Hin).
  unfold execAll in Hin. apply TitleFacts.execAllAux_in in Hin. unfold execAt in Hin.
  apply mt_sound in Hin as (j' & d & HM & Hk). inversion Hk; subst j'.
  destruct (capitalized_head _ _ _ _ HM) as (b & Hb & Hu & Hpj).
  apply (M_span false _ (fun c => keywordChar c = true)) in HM as [_ Hspan]; [|exact capitalized_only].
  cbn [matched]. split.
  - destruct (slice_head _ _ _ _ Hpj Hb) as (rest & ->). eauto.
  - apply slice_chars. exact Hspan.
Qed.

Lemma nodup_firstn {A} : forall n (l : list A), NoDup l -> NoDup (firstn n l).
Proof.
  intros n l H. rewrite <- (firstn_skipn n l) in H. exact (NoDup_app_remove_r _ _ H).
Qed.

Lemma in_firstn_in {A} : forall n (l : list A) x, In x (firstn n l) -> In x l.
Proof.
  intros n l x H. apply RequiredFacts.in_firstn in H as (m & _ & Hm). exact (nth_error_In _ _ Hm).
Qed.

End KeywordFacts.

(** X11: [extractKeywords] returns at most 50 distinct keywords; each is longer than two characters, is not a common word (case-insensitively), starts with an upper-case letter and consists only of letters and whitespace. *)
Theorem extractKeywords_spec : forall text,
  let ks := ResumeParser.extractKeywords text in
  NoDup ks /\ (List.length ks <= 50)%nat /\
  forall w, In w ks ->
    (2 < String.length w)%nat /\ ~ In (JS.toLowerCase w) ResumeParser.commonWords /\
    (exists c rest, w = String c rest /\ Regex.isUpper c = true) /\
    (forall c, In c (list_ascii_of_string w) ->
       (Regex.isUpper c || Regex.isLower c || JS.isSpace c)%bool = true).
Proof.
  intros text ks. subst ks. unfold ResumeParser.extractKeywords. cbv zeta.
  split; [apply KeywordFacts.nodup_firstn, DedupFacts.dedup_nodup|].
  split; [apply firstn_le_length|].
  intros w Hw. apply KeywordFacts.in_firstn_in, DedupFacts.dedup_spec, filter_In in Hw as [Hm Hf].
  apply andb_true_iff in Hf as [Hc Hl]. apply Nat.ltb_lt in Hl.
  destruct (KeywordFacts.matchAll_capitalized _ _ Hm) as [Hh Hs].
  split; [exact Hl|split; [|split; [exact Hh|exact Hs]]].
  intros Hin. apply negb_true_iff in Hc. 
  assert (existsb (String.eqb (JS.toLowerCase w)) ResumeParser.commonWords = true)
    by (apply existsb_exists; exists (JS.toLowerCase w); split; [exact Hin|apply String.eqb_refl]).
  congruence.
Qed.

Module CategoryFacts.
Import ResumeParser.

Definition inCat (kws : list string) (role : Role.t) : bool :=
  existsb (JS.includes (JS.toLowerCase (Role.title role))) kws.

Definition sumRoleYears (rs : list Role.t) : Z :=
  fold_left (fun acc role => acc + yearsToAdd role) rs 0.

(** the entry of a category before the final defaulting step *)
Definition rawEntry (roles : list Role.t) (kws : list string) : option Cat.t :=
  match filter (inCat kws) roles with
  | [] => None
  | rs => Some (Cat.mk (sumRoleYears rs) (map Role.title rs))
  end.

Definition bump (t : string) (y : Z) (o : option Cat.t) : Cat.t :=
  match o with
  | Some e => Cat.mk (Cat.years e + y) (Cat.roles e ++ [t])
  | None => Cat.mk y [t]
  end.

Lemma addToCategory_lookup : forall ty t y m k,
  lookup k (addToCategory ty t y m) =
  if String.eqb k ty then Some (bump t y (lookup k m)) else lookup k m.
Proof.
  intros ty t y m k. induction m as [|[k' e] m IH]; cbn [addToCategory lookup].
  - destruct (String.eqb_spec k ty) as [->|Hne]; cbn [lookup]; reflexivity.
  - destruct (String.eqb_spec ty k') as [->|Hne]; cbn [lookup].
    + destruct (String.eqb_spec k k'); reflexivity.
    + destruct (String.eqb_spec k k') as [->|Hne'].
      * destruct (String.eqb_spec k' ty); [congruence|reflexivity].
      * exact IH.
Qed.

Definition scanTypes (role : Role.t) (types : list (string * list string))
           (m : list (string * Cat.t)) : list (string * Cat.t) :=
  fold_left (fun m '(ty, keywords) =>
    if existsb (JS.includes (JS.toLowerCase (Role.title role))) keywords
    then addToCategory ty (Role.title role) (yearsToAdd role) m
    else m) types m.

Lemma scanTypes_lookup : forall role types m k,
  NoDup (map fst types) ->
  lookup k (scanTypes role types m) =
  match lookup k types with
  | Some kws => if inCat kws role then Some (bump (Role.title role) (yearsToAdd role) (lookup k m))
                else lookup k m
  | None => lookup k m
  end.
Proof.
  intros role types. induction types as [|[ty kws] types IH]; intros m k Hnd; [reflexivity|].
  cbn [map fst] in Hnd. inversion Hnd as [|? ? Hni Hnd']; subst.
  unfold scanTypes in IH |- *. cbn [fold_left].
  rewrite IH by exact Hnd'. cbn [lookup].
  destruct (String.eqb_spec k ty) as [->|Hne].
  - assert (Hn : lookup ty types = None).
    { clear -Hni. induction types as [|[k' v] types IH]; [reflexivity|].
      cbn [lookup]. cbn [map fst In] in Hni.
      destruct (String.eqb_spec ty k') as [->|]; [exfalso; apply Hni; left; reflexivity|apply IH; tauto]. }
    rewrite Hn. unfold inCat.
    destruct (existsb _ kws); [|reflexivity].
    rewrite addToCategory_lookup, String.eqb_refl. reflexivity.
  - destruct (lookup k types) as [kws'|];
    (destruct (existsb _ kws); [rewrite addToCategory_lookup; destruct (String.eqb_spec k ty); [congruence|]|]);
    reflexivity.
Qed.

Lemma roleTypes_nodup : NoDup (map fst roleTypes).
Proof.
  cbn. repeat constructor; cbn; intros H; repeat destruct H as [H|H]; try discriminate H; exact H.
Qed.

Lemma filter_snoc {A} (p : A -> bool) (l : list A) (x : A) :
  filter p (l ++ [x]) = (filter p l ++ (if p x then [x] else []))%list.
Proof. rewrite filter_app. cbn. destruct (p x); reflexivity. Qed.

Lemma rawEntry_snoc : forall pre x kws,
  rawEntry (pre ++ [x]) kws =
  if inCat kws x then Some (bump (Role.title x) (yearsToAdd x) (rawEntry pre kws))
  else rawEntry pre kws.
Proof.
  intros pre x kws. unfold rawEntry. rewrite filter_snoc.
  destruct (inCat kws x); [|now rewrite app_nil_r].
  destruct (filter (inCat kws) pre) as [|r0 rs] eqn:E; cbn [app bump].
  - unfold sumRoleYears. cbn. reflexivity.
  - change (r0 :: (rs ++ [x]))%list with ((r0 :: rs) ++ [x])%list.
    unfold sumRoleYears. rewrite fold_left_app. cbn [fold_left Cat.years Cat.roles].
    rewrite map_app. reflexivity.
Qed.

Definition rawMap (roles : list Role.t) : list (string * Cat.t) :=
  fold_left (fun m role =>
      let roleTitle := JS.toLowerCase (Role.title role) in
      fold_left (fun m '(ty, keywords) =>
        if existsb (JS.includes roleTitle) keywords
        then addToCategory ty (Role.title role) (yearsToAdd role) m
        else m) roleTypes m) roles [].

Lemma rawMap_lookup : forall roles k,
  lookup k (rawMap roles) =
  match lookup k roleTypes with Some kws => rawEntry roles kws | None => None end.
Proof.
  intros roles k. unfold rawMap.
  assert (G : forall l pre m,
    (forall k, lookup k m = match lookup k roleTypes with Some kws => rawEntry pre kws | None => None end) ->
    forall k, lookup k (fold_left (fun m role =>
      let roleTitle := JS.toLowerCase (Role.title role) in
      fold_left (fun m '(ty, keywords) =>
        if existsb (JS.includes roleTitle) keywords
        then addToCategory ty (Role.title role) (yearsToAdd role) m
        else m) roleTypes m) l m) =
      match lookup k roleTypes with Some kws => rawEntry (pre ++ l) kws | None => None end).
  { induction l as [|x l IH]; intros pre m Hm k'; cbn [fold_left].
    - rewrite app_nil_r. apply Hm.
    - replace (pre ++ x :: l)%list with ((pre ++ [x]) ++ l)%list by (rewrite <- app_assoc; reflexivity).
      apply IH. intros k0. fold (scanTypes x roleTypes m).
      rewrite scanTypes_lookup by exact roleTypes_nodup. rewrite Hm.
      destruct (lookup k0 roleTypes) as [kws|]; [|reflexivity].
      rewrite rawEntry_snoc. reflexivity. }
  apply (G roles [] []). intros k0. destruct (lookup k0 roleTypes); reflexivity.
Qed.

Definition finalEntry (e : Cat.t) : Cat.t :=
  if (Cat.years e =? 0) && (0 <? Z.of_nat (List.length (Cat.roles e)))
  then Cat.mk (Z.of_nat (List.length (Cat.roles e)) * 2) (Cat.roles e) else e.

Lemma calculateExperienceByRole_raw : forall roles,
  calculateExperienceByRole roles = map (fun '(ty, e) => (ty, finalEntry e)) (rawMap roles).
Proof.
  intros roles. unfold calculateExperienceByRole. cbv zeta. fold (rawMap roles).
  apply map_ext. intros [ty e]. unfold finalEntry.
  destruct (_ && _); reflexivity.
Qed.

Lemma lookup_map_entries : forall (g : Cat.t -> Cat.t) m k,
  lookup k (map (fun '(ty, e) => (ty, g e)) m) = option_map g (lookup k m).
Proof.
  intros g m k. induction m as [|[k' e] m IH]; cbn; [reflexivity|].
  destruct (String.eqb k k'); [reflexivity|exact IH].
Qed.

Lemma in_keys_addToCategory : forall ty t y m k,
  In k (map fst (addToCategory ty t y m)) -> k = ty \/ In k (map fst m).
Proof.
  intros ty t y m k. induction m as [|[k' e] m IH]; cbn [addToCategory map fst In]; intros H.
  - destruct H as [H|[]]. left. symmetry. exact H.
  - destruct (String.eqb ty k'); cbn [map fst In] in H |- *.
    + destruct H as [H|H]; [right; left; exact H|right; right; exact H].
    + destruct H as [H|H]; [right; left; exact H|]. destruct (IH H); tauto.
Qed.

Lemma addToCategory_nodup : forall ty t y m,
  NoDup (map fst m) -> NoDup (map fst (addToCategory ty t y m)).
Proof.
  intros ty t y m. induction m as [|[k' e] m IH]; intros H; cbn [addToCategory map fst].
  - repeat constructor. intros [].
  - inversion H as [|? ? Hni Hnd]; subst.
    destruct (String.eqb_spec ty k') as [->|Hne]; cbn [map fst]; [constructor; assumption|].
    constructor; [|exact (IH Hnd)].
    intros Hin. apply in_keys_addToCategory in Hin as [->|Hin]; [congruence|contradiction].
Qed.

Lemma in_keys_scanTypes : forall role types m k,
  In k (map fst (scanTypes role types m)) -> In k (map fst types) \/ In k (map fst m).
Proof.
  intros role types. unfold scanTypes.
  induction types as [|[ty kws] types IH]; intros m k H; cbn [fold_left] in H; [tauto|].
  apply IH in H as [H|H]; [left; right; exact H|].
  destruct (existsb _ kws); [|tauto].
  apply in_keys_addToCategory in H as [->|H]; [left; left; reflexivity|tauto].
Qed.

Lemma scanTypes_nodup : forall role types m,
  NoDup (map fst m) -> NoDup (map fst (scanTypes role types m)).
Proof.
  intros role types. unfold scanTypes.
  induction types as [|[ty kws] types IH]; intros m H; cbn [fold_left]; [exact H|].
  apply IH. destruct (existsb _ kws); [now apply addToCategory_nodup|exact H].
Qed.

Lemma rawMap_keys : forall roles,
  NoDup (map fst (rawMap roles)) /\ forall k, In k (map fst (rawMap roles)) -> In k (map fst roleTypes).
Proof.
  intros roles. unfold rawMap.
  assert (G : forall l m, NoDup (map fst m) -> (forall k, In k (map fst m) -> In k (map fst roleTypes)) ->
    let m' := fold_left (fun m role =>
      let roleTitle := JS.toLowerCase (Role.title role) in
      fold_left (fun m '(ty, keywords) =>
        if existsb (JS.includes roleTitle) keywords
        then addToCategory ty (Role.title role) (yearsToAdd role) m
        else m) roleTypes m) l m in
    NoDup (map fst m') /\ forall k, In k (map fst m') -> In k (map fst roleTypes)).
  { induction l as [|x l IH]; intros m H1 H2; cbn [fold_left]; [split; assumption|].
    apply IH; fold (scanTypes x roleTypes m).
    - now apply scanTypes_nodup.
    - intros k Hk. apply in_keys_scanTypes in Hk as [Hk|Hk]; [exact Hk|exact (H2 k Hk)]. }
  apply G; [constructor|intros k []].
Qed.

End CategoryFacts.

(** X12: [calculateExperienceByRole] has each key at most once, only keys of [roleTypes]; a category is present exactly when some role title matches one of its keywords, and then its years are the sum of the matching roles' [yearsToAdd] (twice the number of such roles when that sum is 0) and its roles are their titles in order. *)
Theorem calculateExperienceByRole_spec : forall roles,
  let m := ResumeParser.calculateExperienceByRole roles in
  NoDup (map fst m) /\
  (forall ty, In ty (map fst m) -> In ty (map fst ResumeParser.roleTypes)) /\
  (forall ty kws, In (ty, kws) ResumeParser.roleTypes ->
     let rs := filter (fun role => existsb (JS.includes (JS.toLowerCase (Role.title role))) kws) roles in
     lookup ty m =
       match rs with
       | [] => None
       | _ => let y := fold_left (fun acc role => acc + ResumeParser.yearsToAdd role) rs 0 in
              Some (Cat.mk (if y =? 0 then Z.of_nat (List.length rs) * 2 else y) (map Role.title rs))
       end).
Proof.
  intros roles m. subst m. rewrite CategoryFacts.calculateExperienceByRole_raw.
  destruct (CategoryFacts.rawMap_keys roles) as [K1 K2].
  assert (Hk : forall m : list (string * Cat.t),
            map fst (map (fun '(ty, e) => (ty, CategoryFacts.finalEntry e)) m) = map fst m).
  { induction m as [|[k e] m IH]; cbn; [reflexivity|now rewrite IH]. }
  rewrite Hk. split; [exact K1|split; [exact K2|]].
  intros ty kws Hin rs.
  rewrite CategoryFacts.lookup_map_entries, CategoryFacts.rawMap_lookup.
  assert (Hl : lookup ty ResumeParser.roleTypes = Some kws).
  { clear -Hin. cbn in Hin. repeat destruct Hin as [Hin|Hin]; inversion Hin; reflexivity. }
  rewrite Hl. unfold CategoryFacts.rawEntry. change (filter (CategoryFacts.inCat kws) roles) with rs.
  destruct rs as [|r0 rs'] eqn:E; [reflexivity|].
  cbn [option_map]. unfold CategoryFacts.finalEntry. cbn [Cat.years Cat.roles].
  rewrite length_map. unfold CategoryFacts.sumRoleYears.
  destruct (fold_left _ _ 0 =? 0); cbn [andb]; [|reflexivity].
  replace (0 <? Z.of_nat (List.length (r0 :: rs'))) with true by (symmetry; apply Z.ltb_lt; cbn [List.length]; lia).
  reflexivity.
Qed.

Module SeniorityFacts.
Import ResumeParser.

Lemma seniorityLevel_eq : forall now text,
  Profile.seniorityLevel (extractInformation now text) =
  determineSeniorityLevel (JS.toLowerCase text) (calculateExperienceByRole (extractRoles now text)).
Proof. reflexivity. Qed.

Lemma determineSeniorityLevel_levels : forall text m,
  In (determineSeniorityLevel text m) ["entry"; "mid"; "senior"; "manager"].
Proof.
  intros text m. unfold determineSeniorityLevel, seniorityIndicators. cbv zeta.
  cbn [find].
  repeat match goal with |- context [if ?b then _ else _] => destruct b end; cbn [In]; tauto.
Qed.

End SeniorityFacts.

(** X13: when the lower-cased résumé contains one of the entry indicators, the parsed seniority level is "entry", whatever other indicators the text contains. *)
Theorem seniorityLevel_entry_first : forall now text,
  existsb (JS.includes (JS.toLowerCase text))
    ["intern"; "internship"; "junior"; "entry level"; "associate"; "graduate"; "trainee"] = true ->
  Profile.seniorityLevel (ResumeParser.extractInformation now text) = "entry".
Proof.
  intros now text H. rewrite SeniorityFacts.seniorityLevel_eq.
  unfold ResumeParser.determineSeniorityLevel, ResumeParser.seniorityIndicators. cbv zeta.
  cbn [find]. rewrite H. reflexivity.
Qed.

(** X14: the parsed seniority level is one of "entry", "mid", "senior" and "manager". *)
Theorem seniorityLevel_range : forall now text,
  In (Profile.seniorityLevel (ResumeParser.extractInformation now text))
     ["entry"; "mid"; "senior"; "manager"].
Proof.
  intros now text. rewrite SeniorityFacts.seniorityLevel_eq. apply SeniorityFacts.determineSeniorityLevel_levels.
Qed.

Module PrimaryFacts.

Definition firstMax (m : list (string * Cat.t)) (y : Z) (ty : string) : Prop :=
  exists pre e post, m = (pre ++ (ty, e) :: post)%list /\ Cat.years e = y /\
    forall k' e', In (k', e') pre -> Cat.years e' < y.

Definition inv (m : list (string * Cat.t)) (acc : Z * string) : Prop :=
  0 <= fst acc /\ (forall k e, In (k, e) m -> Cat.years e <= fst acc) /\
  ((fst acc = 0 /\ snd acc = "General") \/ (0 < fst acc /\ firstMax m (fst acc) (snd acc))).

Lemma fold_inv : forall l pre acc, inv pre acc ->
  inv (pre ++ l) (fold_left (fun '(maxYears, primaryType) '(ty, data) =>
                     if maxYears <? Cat.years data then (Cat.years data, ty)
                     else (maxYears, primaryType)) l acc).
Proof.
  induction l as [|[k e] l IH]; intros pre [mx pt] Hi; cbn [fold_left].
  - now rewrite app_nil_r.
  - replace (pre ++ (k, e) :: l)%list with ((pre ++ [(k, e)]) ++ l)%list by (rewrite <- app_assoc; reflexivity).
    apply IH. destruct Hi as (H0 & Hle & Hc). cbn [fst snd] in *.
    destruct (Z.ltb_spec mx (Cat.years e)) as [Hlt|Hge]; unfold inv; cbn [fst snd].
    + split; [lia|split].
      * intros k' e' Hin. apply in_app_or in Hin as [Hin|[Hin|[]]]; [specialize (Hle _ _ Hin); lia|].
        inversion Hin; subst. lia.
      * right. split; [lia|]. exists pre, e, []. split; [reflexivity|split; [reflexivity|]].
        intros k' e' Hin. specialize (Hle _ _ Hin). lia.
    + split; [exact H0|split].
      * intros k' e' Hin. apply in_app_or in Hin as [Hin|[Hin|[]]]; [exact (Hle _ _ Hin)|].
        inversion Hin; subst. lia.
      * destruct Hc as [Hc|[Hp (pre' & e' & post & -> & Hy & Hlt)]]; [left; exact Hc|right].
        split; [exact Hp|]. exists pre', e', (post ++ [(k, e)])%list.
        split; [rewrite <- app_assoc; reflexivity|split; [exact Hy|exact Hlt]].
Qed.

End PrimaryFacts.

(** X15: for a non-empty role list, [determinePrimaryRole] takes the title of the first role ("Professional" when it is empty) and the largest category years [y] (at least 0); the type is "General" when [y = 0] and otherwise the first category with [y] years. *)
Theorem determinePrimaryRole_max : forall r0 rest m,
  let p := ResumeParser.determinePrimaryRole (r0 :: rest) m in
  Primary.title p = (if JS.truthy (Role.title r0) then Role.title r0 else "Professional") /\
  exists y, Primary.yearsInRole p = Some y /\ 0 <= y /\
    (forall k e, In (k, e) m -> Cat.years e <= y) /\
    ((y = 0 /\ Primary.type p = "General") \/
     (0 < y /\ exists pre e post, m = (pre ++ (Primary.type p, e) :: post)%list /\
        Cat.years e = y /\ forall k' e', In (k', e') pre -> Cat.years e' < y)).
Proof.
  intros r0 rest m p. subst p. unfold ResumeParser.determinePrimaryRole.
  pose proof (PrimaryFacts.fold_inv m [] (0, "General")) as Hi.
  destruct (fold_left _ m (0, "General")) as [mx pt].
  cbn [app] in Hi. destruct Hi as (H0 & Hle & Hc).
  { split; [cbn; lia|split; [intros k e []|left; split; reflexivity]]. }
  cbn [fst snd Primary.title Primary.yearsInRole Primary.type] in *.
  split; [reflexivity|]. exists mx. split; [reflexivity|split; [exact H0|split; [exact Hle|exact Hc]]].
Qed.

(** witness of X13 *)
Lemma seniorityLevel_entry_first_witness :
  Profile.seniorityLevel (ResumeParser.extractInformation 2024 "Associate Director") = "entry".
Proof. apply seniorityLevel_entry_first. vm_compute. reflexivity. Defined.

Module SearchFacts.
Import JobSearch.

Lemma existsb_eqb_in : forall k seen, existsb (String.eqb k) seen = true <-> In k seen.
Proof.
  intros k seen. rewrite existsb_exists. split.
  - intros (x & Hx & E). apply String.eqb_eq in E. subst. exact Hx.
  - intros H. exists k. split; [exact H|apply String.eqb_refl].
Qed.

Lemma dedupJobs_fresh : forall jobs seen j, In j (dedupJobs seen jobs) -> ~ In (jobKey j) seen.
Proof.
  induction jobs as [|job rest IH]; intros seen j H; cbn [dedupJobs] in H; [contradiction|].
  destruct (existsb (String.eqb (jobKey job)) seen) eqn:E; [exact (IH _ _ H)|].
  destruct H as [<-|H].
  - intros Hin. apply existsb_eqb_in in Hin. congruence.
  - intros Hin. apply (IH _ _ H). right. exact Hin.
Qed.

Lemma dedupJobs_nodup : forall jobs seen, NoDup (map jobKey (dedupJobs seen jobs)).
Proof.
  induction jobs as [|job rest IH]; intros seen; cbn [dedupJobs]; [constructor|].
  destruct (existsb (String.eqb (jobKey job)) seen) eqn:E; [apply IH|].
  cbn [map]. constructor; [|apply IH].
  intros Hin. apply in_map_iff in Hin as (j & Hk & Hj).
  apply dedupJobs_fresh in Hj. apply Hj. rewrite Hk. left. reflexivity.
Qed.

Lemma dedupJobs_cover : forall jobs seen j, In j jobs ->
  In (jobKey j) seen \/ exists j', In j' (dedupJobs seen jobs) /\ jobKey j' = jobKey j.
Proof.
  induction jobs as [|job rest IH]; intros seen j H; [contradiction|].
  cbn [dedupJobs]. destruct (existsb (String.eqb (jobKey job)) seen) eqn:E.
  - destruct H as [<-|H]; [left; apply existsb_eqb_in; exact E|exact (IH _ _ H)].
  - destruct H as [<-|H]; [right; exists job; split; [left|]; reflexivity|].
    destruct (IH (jobKey job :: seen) j H) as [[Hk|Hk]|(j' & H1 & H2)].
    + right. exists job. split; [left; reflexivity|exact Hk].
    + left. exact Hk.
    + right. exists j'. split; [right; exact H1|exact H2].
Qed.

Lemma dedupJobs_first : forall jobs seen j, In j (dedupJobs seen jobs) ->
  exists pre post, jobs = (pre ++ j :: post)%list /\ forall x, In x pre -> jobKey x <> jobKey j.
Proof.
  induction jobs as [|job rest IH]; intros seen j H; cbn [dedupJobs] in H; [contradiction|].
  destruct (existsb (String.eqb (jobKey job)) seen) eqn:E.
  - pose proof (dedupJobs_fresh _ _ _ H) as Hf.
    destruct (IH _ _ H) as (pre & post & -> & Hp).
    exists (job :: pre), post. split; [reflexivity|].
    intros x [<-|Hx]; [|exact (Hp x Hx)].
    intros Hk. apply Hf. rewrite <- Hk. apply existsb_eqb_in. exact E.
  - destruct H as [<-|H]; [exists [], rest; split; [reflexivity|intros x []]|].
    pose proof (dedupJobs_fresh _ _ _ H) as Hf.
    destruct (IH _ _ H) as (pre & post & -> & Hp).
    exists (job :: pre), post. split; [reflexivity|].
    intros x [<-|Hx]; [|exact (Hp x Hx)].
    intros Hk. apply Hf. left. exact Hk.
Qed.

Lemma buildSearchQueries_head : forall r pr,
  Profile.primaryRole r = Some pr -> JS.truthy (Primary.title pr) = true ->
  exists rest, buildSearchQueries r = Primary.title pr :: rest.
Proof.
  intros r pr Hp Ht. unfold buildSearchQueries. cbv zeta. rewrite Hp, Ht.
  repeat match goal with |- context [if ?b then _ else _] => destruct b end;
  try discriminate; cbn [app]; unfold JS.dedup; cbn [JS.dedupAux existsb firstn]; eexists; reflexivity.
Qed.

Lemma buildSearchQueries_bounds : forall r,
  NoDup (buildSearchQueries r) /\ (List.length (buildSearchQueries r) <= 5)%nat.
Proof.
  intros r. unfold buildSearchQueries. cbv zeta. split; [|apply firstn_le_length].
  apply KeywordFacts.nodup_firstn, DedupFacts.dedup_nodup.
Qed.

End SearchFacts.

(** X16: [deduplicateJobs] keeps one job per lower-cased title-company key: the keys of its result are distinct, every input key is kept, and each kept job is the first input job with its key. *)
Theorem deduplicateJobs_spec : forall jobs,
  let out := JobSearch.deduplicateJobs jobs in
  NoDup (map JobSearch.jobKey out) /\
  (forall j, In j jobs -> exists j', In j' out /\ JobSearch.jobKey j' = JobSearch.jobKey j) /\
  (forall j, In j out -> exists pre post, jobs = (pre ++ j :: post)%list /\
     forall x, In x pre -> JobSearch.jobKey x <> JobSearch.jobKey j).
Proof.
  intros jobs out. split; [|split].
  - apply SearchFacts.dedupJobs_nodup.
  - intros j H. destruct (SearchFacts.dedupJobs_cover jobs [] j H) as [[]|E]. exact E.
  - intros j H. exact (SearchFacts.dedupJobs_first jobs [] j H).
Qed.

(** X17: for a parsed résumé, [buildSearchQueries] returns at most five distinct queries, and the first one is the (non-empty) title of the primary role. *)
Theorem buildSearchQueries_parsed : forall now text,
  let p := ResumeParser.extractInformation now text in
  let q := JobSearch.buildSearchQueries p in
  NoDup q /\ (List.length q <= 5)%nat /\
  exists pr rest, Profile.primaryRole p = Some pr /\ JS.truthy (Primary.title pr) = true /\
                  q = Primary.title pr :: rest.
Proof.
  intros now text p q.
  destruct (SearchFacts.buildSearchQueries_bounds p) as [H1 H2].
  split; [exact H1|split; [exact H2|]].
  destruct (ParseFacts.extractInformation_fields now text) as [_ [_ [_ Hp]]].
  set (pr := ResumeParser.determinePrimaryRole _ _) in Hp.
  assert (Ht : JS.truthy (Primary.title pr) = true).
  { unfold pr, ResumeParser.determinePrimaryRole.
    destruct (ResumeParser.extractRoles now text) as [|r0 rs]; [reflexivity|].
    destruct (fold_left _ _ _) as [m t]. cbn [Primary.title].
    destruct (JS.truthy (Role.title r0)) eqn:E; [exact E|reflexivity]. }
  destruct (SearchFacts.buildSearchQueries_head p pr Hp Ht) as [rest Hq].
  exists pr, rest. split; [exact Hp|split; [exact Ht|exact Hq]].
Qed.
